(** * amp-video 0.1: the custom element wrapping a native video element

    A shallow embedding of [extensions/amp-video/0.1/amp-video.js].  The
    class [AmpVideo] is a record holding the fields of the component together
    with the part of the DOM it reads and writes; every method is a function
    in a state-and-exception monad over that record.  What the methods obtain
    from the host runtime (URL assertion, mode flags, the platform's video
    element) is gathered in the class [Host]. *)

From Stdlib Require Import ZArith List Bool.
From stdpp Require Import base option strings gmap list.

Import ListNotations.
Local Open Scope string_scope.
Local Open Scope list_scope.

(** ** JavaScript values *)

(** The values a mutation record carries.  A key that is missing from the
    record reads as [undefined]; this is the [None] of a lookup. *)
Inductive JsValue : Type :=
| JsNull
| JsBool (b : bool)
| JsNumber (n : Z)
| JsString (s : string).

(** [if (x)] on a property read from a mutation record. *)
Definition truthy (x : option JsValue) : bool :=
  match x with
  | None => false
  | Some JsNull => false
  | Some (JsBool b) => b
  | Some (JsNumber n) => negb (Z.eqb n 0)
  | Some (JsString s) => negb (String.eqb s "")
  end.

(** [x !== undefined]. *)
Definition isDefined (x : option JsValue) : bool :=
  match x with
  | None => false
  | Some _ => true
  end.

(** [if (a)] on the result of [getAttribute]: [null] and the empty string are
    the falsy ones. *)
Definition truthyAttr (a : option string) : bool :=
  match a with
  | None => false
  | Some s => negb (String.eqb s "")
  end.

(** [a || b] on two attribute reads. *)
Definition orAttr (a b : option string) : option string :=
  if truthyAttr a then a else b.

(** [a || ''] on an attribute read followed by a string literal. *)
Definition orString (a : option string) (d : string) : string :=
  match a with
  | None => d
  | Some s => if String.eqb s "" then d else s
  end.

(** ** The DOM fragment *)

#[local] Set Warnings "-register-all".
Inductive Node : Type :=
| TextNode (data : string)
| ElementNode (tagName : string) (attributes : gmap string string)
    (childNodes : list Node).

(** [VideoEvents] of src/video-interface, as far as this file names them. *)
Inductive VideoEvents : Type :=
| RELOAD | LOAD | PLAYING | PAUSE | ENDED | MUTED | UNMUTED | VISIBILITY.

(** The event types the component listens to on the native element. *)
Inductive EventType : Type :=
| OfVideoEvent (e : VideoEvents)
| Volumechange
| EndedEvent.

(** The listeners [installEventHandlers_] registers, one constructor per
    closure. *)
Inductive Listener : Type :=
| ForwardEvent (e : VideoEvents)
| VolumechangeListener
| EndedListener.

(** What a call of the native [play] hands back: nothing on old platforms,
    otherwise a promise that fulfils or rejects with a reason. *)
Inductive PlayReturn : Type :=
| PlayUndefined
| PlayPromise (rejection : option string).

Record VideoElement : Type := mkVideo {
  v_attributes : gmap string string;
  v_childNodes : list Node;
  v_listeners : list (EventType * Listener);
  v_muted : bool;
  v_controls : bool;
  v_play : option PlayReturn
}.

(** A child of the custom element: the video element the component made
    (the object [this.video_] refers to) or any other node. *)
Inductive Child : Type :=
| TheVideo
| Other (n : Node).

Record Artwork : Type := mkArtwork { art_src : string }.

Record MetadataDef : Type := mkMetadata {
  md_title : string;
  md_artist : string;
  md_album : string;
  md_artwork : list Artwork
}.

(** What the host observes of a call, in the order it happens. *)
Inductive Effect : Type :=
| DispatchCustomEvent (e : VideoEvents) (detail : option bool)
| ToggleFallback (on : bool)
| PreconnectUrl (url : string) (onLayout : option bool)
| ConsoleError (msg : string)
| ApplyFillContent (replacedContent : bool)
| RegisterVideo
| NativePlay
| NativePause.

(** ** The component *)

Record AmpVideo : Type := mkAmpVideo {
  element_attributes : gmap string string;
  element_childNodes : list Child;
  video_ : option VideoElement;
  muted_ : bool;
  metadata_ : MetadataDef;
  effects : list Effect;
  unhandledRejections : list string
}.

Inductive Failure : Type :=
| UserAssertion (url : option string)
| DevAssertion
| TypeError.

Inductive Outcome (A : Type) : Type :=
| Ok (a : A)
| Throw (e : Failure).
Arguments Ok {A} a.
Arguments Throw {A} e.

Definition M (A : Type) : Type := AmpVideo -> Outcome A * AmpVideo.

Definition ret {A : Type} (a : A) : M A := fun st => (Ok a, st).

Definition throw {A : Type} (e : Failure) : M A := fun st => (Throw e, st).

Definition bind {A B : Type} (m : M A) (k : A -> M B) : M B :=
  fun st =>
    match m st with
    | (Ok a, st') => k a st'
    | (Throw e, st') => (Throw e, st')
    end.

Declare Scope amp_scope.
Delimit Scope amp_scope with amp.
Notation "'let*' x ':=' m 'in' k" := (bind m (fun x => k))
  (at level 10, x name, m at level 100, k at level 200) : amp_scope.
Notation "m ';;' k" := (bind m (fun _ => k))
  (at level 100, k at level 200, right associativity) : amp_scope.
Local Open Scope amp_scope.

Definition when (b : bool) (m : M unit) : M unit :=
  if b then m else ret tt.

Definition get : M AmpVideo := fun st => (Ok st, st).

Definition modify (f : AmpVideo -> AmpVideo) : M unit :=
  fun st => (Ok tt, f st).

(** *** Field updates *)

Definition with_attributes (a : gmap string string) (st : AmpVideo)
  : AmpVideo :=
  mkAmpVideo a (element_childNodes st) (video_ st) (muted_ st)
    (metadata_ st) (effects st) (unhandledRejections st).

Definition with_children (cs : list Child) (st : AmpVideo) : AmpVideo :=
  mkAmpVideo (element_attributes st) cs (video_ st) (muted_ st)
    (metadata_ st) (effects st) (unhandledRejections st).

Definition with_video (v : option VideoElement) (st : AmpVideo) : AmpVideo :=
  mkAmpVideo (element_attributes st) (element_childNodes st) v (muted_ st)
    (metadata_ st) (effects st) (unhandledRejections st).

Definition with_muted (b : bool) (st : AmpVideo) : AmpVideo :=
  mkAmpVideo (element_attributes st) (element_childNodes st) (video_ st) b
    (metadata_ st) (effects st) (unhandledRejections st).

Definition with_metadata (md : MetadataDef) (st : AmpVideo) : AmpVideo :=
  mkAmpVideo (element_attributes st) (element_childNodes st) (video_ st)
    (muted_ st) md (effects st) (unhandledRejections st).

Definition with_effects (l : list Effect) (st : AmpVideo) : AmpVideo :=
  mkAmpVideo (element_attributes st) (element_childNodes st) (video_ st)
    (muted_ st) (metadata_ st) l (unhandledRejections st).

Definition with_unhandled (l : list string) (st : AmpVideo) : AmpVideo :=
  mkAmpVideo (element_attributes st) (element_childNodes st) (video_ st)
    (muted_ st) (metadata_ st) (effects st) l.

Definition v_with_attributes (a : gmap string string) (v : VideoElement)
  : VideoElement :=
  mkVideo a (v_childNodes v) (v_listeners v) (v_muted v) (v_controls v)
    (v_play v).

Definition v_with_childNodes (k : list Node) (v : VideoElement)
  : VideoElement :=
  mkVideo (v_attributes v) k (v_listeners v) (v_muted v) (v_controls v)
    (v_play v).

Definition v_with_listeners (l : list (EventType * Listener))
  (v : VideoElement) : VideoElement :=
  mkVideo (v_attributes v) (v_childNodes v) l (v_muted v) (v_controls v)
    (v_play v).

Definition v_with_muted (b : bool) (v : VideoElement) : VideoElement :=
  mkVideo (v_attributes v) (v_childNodes v) (v_listeners v) b (v_controls v)
    (v_play v).

Definition v_with_controls (b : bool) (v : VideoElement) : VideoElement :=
  mkVideo (v_attributes v) (v_childNodes v) (v_listeners v) (v_muted v) b
    (v_play v).

(** ** Constants of the module *)

Definition TAG : string := "amp-video".

Definition ATTRS_TO_PROPAGATE_ON_BUILD : list string :=
  [ "aria-describedby";
    "aria-label";
    "aria-labelledby";
    "controls";
    "crossorigin";
    "poster";
    "controlsList" ].

Definition ATTRS_TO_PROPAGATE_ON_LAYOUT : list string :=
  [ "src"; "loop"; "preload" ].

Definition ATTRS_TO_PROPAGATE : list string :=
  ATTRS_TO_PROPAGATE_ON_BUILD ++ ATTRS_TO_PROPAGATE_ON_LAYOUT.

(** ** What the host runtime supplies *)

(** The imports of the module whose bodies live elsewhere in the runtime.
    - [passesHttpsAssert u]: whether [assertHttpsUrl] of src/url accepts the
      value [u] (a string, or [None] for [null]); on refusal it throws.
    - [isInternalOrServiceNode n]: whether [getRealChildNodes] of the base
      element leaves [n] out.
    - [development]: [getMode().development].
    - [EMPTY_METADATA]: the constant of src/mediasession-helper.
    - [platformPlay]: the [play] property of an element made by
      [createElement('video')]; [None] where the platform has none.
    - [fillContentClass current replacedContent]: the [class] attribute
      that [applyFillContent] of the base element leaves on an element whose
      [class] was [current]; the call marks the element through its class
      and the classes are the host's. *)
Class Host : Type := mkHost {
  passesHttpsAssert : option string -> bool;
  isInternalOrServiceNode : Node -> bool;
  development : bool;
  EMPTY_METADATA : MetadataDef;
  platformPlay : option PlayReturn;
  fillContentClass : option string -> bool -> string
}.

(** Modelled from the spec: [propagateAttributes] of the base element is not
    among the sources.  The spec calls it propagation of DOM attributes "from
    the custom element to the underlying native element": each listed
    attribute the custom element carries is copied with its value; with
    [opt_removeMissingAttrs] a listed attribute it lacks is removed from the
    target. *)
Fixpoint propagate (from : gmap string string) (attributes : list string)
  (opt_removeMissingAttrs : bool) (target : gmap string string)
  : gmap string string :=
  match attributes with
  | [] => target
  | attr :: rest =>
      let target' :=
        match from !! attr with
        | Some value => <[attr := value]> target
        | None => if opt_removeMissingAttrs then delete attr target else target
        end in
      propagate from rest opt_removeMissingAttrs target'
  end.

(** Modelled from the spec: [elementByTag] of src/dom is not among the
    sources; the spec only speaks of "source resolution".  It is taken as the
    first descendant element with the given tag, in document order. *)
Fixpoint firstByTag (tag : string) (n : Node) : option Node :=
  match n with
  | TextNode _ => None
  | ElementNode t _ kids =>
      if String.eqb t tag then Some n
      else
        (fix among (ks : list Node) : option Node :=
           match ks with
           | [] => None
           | k :: ks' =>
               match firstByTag tag k with
               | Some r => Some r
               | None => among ks'
               end
           end) kids
  end.

Definition nodeGetAttribute (n : Node) (name : string) : option string :=
  match n with
  | TextNode _ => None
  | ElementNode _ attrs _ => attrs !! name
  end.

(** ** The promise a layout hands back *)

(** The promises of the module, as built: [Promise.resolve()], the host's
    [loadPromise] of the video element, and [p.then(callback)].  A term
    tells how a promise was made, not which object it is: two calls that
    build the same term have made two promises, each with its own reaction,
    and each is settled on its own by [settle]. *)
Inductive Promise : Type :=
| PromiseResolve
| LoadPromise
| PromiseThen (p : Promise) (callback : M unit).

Inductive Settlement : Type :=
| Pending
| Fulfilled
| Rejected.

(** Modelled from the spec: [loadPromise] of the base element is not among
    the sources.  The spec calls it "a one-shot ready signal awaited before
    announcing load completion", and the code notes that for media elements
    it listens to [loadstart]: the element has not announced [loadstart]
    yet, has announced it, or failed to load. *)
Inductive LoadSignal : Type :=
| NotYet
| LoadStarted
| LoadFailed.

(** The state of a promise once the reactions enabled by the signal have
    run: a [then] callback runs only when its promise has fulfilled, and the
    derived promise settles after the callback. *)
Fixpoint settle (signal : LoadSignal) (p : Promise)
  : AmpVideo -> Settlement * AmpVideo :=
  fun st =>
    match p with
    | PromiseResolve => (Fulfilled, st)
    | LoadPromise =>
        match signal with
        | NotYet => (Pending, st)
        | LoadStarted => (Fulfilled, st)
        | LoadFailed => (Rejected, st)
        end
    | PromiseThen q callback =>
        match settle signal q st with
        | (Fulfilled, st') =>
            match callback st' with
            | (Ok _, st'') => (Fulfilled, st'')
            | (Throw _, st'') => (Rejected, st'')
            end
        | (Pending, st') => (Pending, st')
        | (Rejected, st') => (Rejected, st')
        end
    end.

(** ** Host primitives acting on the component *)

Definition emit (e : Effect) : M unit :=
  modify (fun st => with_effects (effects st ++ [e]) st).

(** [this.element.getAttribute(name)]. *)
Definition getAttribute (name : string) : M (option string) :=
  fun st => (Ok (element_attributes st !! name), st).

(** [this.element.hasAttribute(name)]. *)
Definition hasAttribute (name : string) : M bool :=
  fun st => (Ok (bool_decide (is_Some (element_attributes st !! name))), st).

(** [this.element.dispatchCustomEvent(name, detail)]. *)
Definition dispatchCustomEvent (e : VideoEvents) (detail : option bool)
  : M unit :=
  emit (DispatchCustomEvent e detail).

(** [this.toggleFallback(on)]. *)
Definition toggleFallback (on : bool) : M unit := emit (ToggleFallback on).

(** A property access or call on [this.video_]: a [TypeError] when the field
    still holds [null]. *)
Definition theVideo : M VideoElement :=
  fun st =>
    match video_ st with
    | Some v => (Ok v, st)
    | None => (Throw TypeError, st)
    end.

(** [dev().assertElement(this.video_)]. *)
Definition assertElementVideo : M VideoElement :=
  fun st =>
    match video_ st with
    | Some v => (Ok v, st)
    | None => (Throw DevAssertion, st)
    end.

Definition setVideo (v : VideoElement) : M unit :=
  modify (with_video (Some v)).

(** [this.video_.setAttribute(name, value)]. *)
Definition videoSetAttribute (name value : string) : M unit :=
  let* v := theVideo in
  setVideo (v_with_attributes (<[name := value]> (v_attributes v)) v).

(** [this.propagateAttributes(attributes, this.video_, removeMissing)]. *)
Definition propagateAttributes (attributes : list string)
  (opt_removeMissingAttrs : bool) : M unit :=
  let* st := get in
  let* v := theVideo in
  setVideo (v_with_attributes
              (propagate (element_attributes st) attributes
                 opt_removeMissingAttrs (v_attributes v)) v).

(** [listen(video, type, listener)]. *)
Definition listen (type : EventType) (l : Listener) : M unit :=
  let* v := theVideo in
  setVideo (v_with_listeners (v_listeners v ++ [(type, l)]) v).

(** [this.forwardEvents(events, video)]: one forwarding listener per event. *)
Fixpoint forwardEvents (events : list VideoEvents) : M unit :=
  match events with
  | [] => ret tt
  | e :: rest => listen (OfVideoEvent e) (ForwardEvent e);; forwardEvents rest
  end.

#[local] Instance VideoEvents_eq_dec : EqDecision VideoEvents.
Proof. solve_decision. Defined.

#[local] Instance EventType_eq_dec : EqDecision EventType.
Proof. solve_decision. Defined.

(** The message of the development-mode complaint about a missing poster;
    the attribute name stands between double quotes. *)
Definition NO_POSTER_MESSAGE : string :=
  let quote := String (Ascii.ascii_of_nat 34) EmptyString in
  "No " ++ quote ++ "poster" ++ quote
    ++ " attribute has been provided for amp-video.".

(** ** The class [AmpVideo] *)

Section AmpVideo.
Context `{Host}.

(** [assertHttpsUrl(url, this.element)]. *)
Definition assertHttpsUrl (url : option string) : M unit :=
  if passesHttpsAssert url then ret tt else throw (UserAssertion url).

(** The native video element seen as a node of the document. *)
Definition videoAsNode (v : VideoElement) : Node :=
  ElementNode "video" (v_attributes v) (v_childNodes v).

Definition childAsNode (video : option VideoElement) (c : Child)
  : option Node :=
  match c with
  | TheVideo => videoAsNode <$> video
  | Other n => Some n
  end.

(** [elementByTag(this.element, tag)]. *)
Fixpoint firstByTagInChildren (tag : string) (video : option VideoElement)
  (cs : list Child) : option Node :=
  match cs with
  | [] => None
  | c :: cs' =>
      match childAsNode video c ≫= firstByTag tag with
      | Some r => Some r
      | None => firstByTagInChildren tag video cs'
      end
  end.

Definition elementByTag (tag : string) : M (option Node) :=
  fun st =>
    (Ok (firstByTagInChildren tag (video_ st) (element_childNodes st)), st).

Definition constructor (attrs : gmap string string) (children : list Node)
  : AmpVideo :=
  {| element_attributes := attrs;
     element_childNodes := Other <$> children;
     video_ := None;
     muted_ := false;
     metadata_ := EMPTY_METADATA;
     effects := [];
     unhandledRejections := [] |}.

(** The result is [null] ([None]), the empty string or a URL. *)
Definition getVideoSource_ : M (option string) :=
  let* videoSrc := getAttribute "src" in
  if negb (truthyAttr videoSrc) then
    let* source := elementByTag "source" in
    match source with
    | Some s => ret (nodeGetAttribute s "src")
    | None => ret videoSrc
    end
  else ret videoSrc.

(** [this.preconnect.url(videoSrc, opt_onLayout)] is recorded as the effect
    [PreconnectUrl]. *)
Definition preconnectCallback (opt_onLayout : option bool) : M unit :=
  let* videoSrc := getVideoSource_ in
  when (truthyAttr videoSrc)
    (assertHttpsUrl videoSrc;;
     emit (PreconnectUrl (orString videoSrc "") opt_onLayout)).

Definition installEventHandlers_ : M unit :=
  let* video := assertElementVideo in
  forwardEvents [PLAYING; PAUSE; ENDED];;
  listen Volumechange VolumechangeListener;;
  listen EndedEvent EndedListener.

(** [this.video_ = this.element.ownerDocument.createElement('video')].  A
    video element an earlier build left under the custom element stays
    there as an ordinary node. *)
Definition createVideo : M unit :=
  modify (fun st =>
    let stale c :=
      match c with
      | TheVideo =>
          match video_ st with
          | Some old => [Other (videoAsNode old)]
          | None => []
          end
      | Other n => [Other n]
      end in
    with_video (Some (mkVideo ∅ [] [] false false platformPlay))
      (with_children (flat_map stale (element_childNodes st)) st)).

(** [this.element.appendChild(this.video_)]. *)
Definition appendVideo : M unit :=
  modify (fun st => with_children (element_childNodes st ++ [TheVideo]) st).

(** [this.applyFillContent(this.video_, replacedContent)]: the host marks
    the native element through its [class]; the call is recorded too. *)
Definition applyFillContent (replacedContent : bool) : M unit :=
  let* v := theVideo in
  setVideo
    (v_with_attributes
       (<["class" :=
            fillContentClass (v_attributes v !! "class") replacedContent]>
          (v_attributes v))
       v);;
  emit (ApplyFillContent replacedContent).

(** The registration with the video manager acts on the host only; it is
    recorded as an effect.  The metadata record is a fresh object, so the
    later writes of [mutatedAttributesCallback], which needs [video_], never
    reach [EMPTY_METADATA]. *)
Definition buildCallback : M unit :=
  createVideo;;
  let* poster := getAttribute "poster" in
  when (negb (truthyAttr poster) && development)
    (emit (ConsoleError NO_POSTER_MESSAGE));;
  videoSetAttribute "playsinline" "";;
  videoSetAttribute "webkit-playsinline" "";;
  videoSetAttribute "preload" "none";;
  propagateAttributes ATTRS_TO_PROPAGATE_ON_BUILD true;;
  installEventHandlers_;;
  applyFillContent true;;
  appendVideo;;
  let* artist := getAttribute "artist" in
  let* title := getAttribute "title" in
  let* album := getAttribute "album" in
  let* artwork := getAttribute "artwork" in
  modify (with_metadata
            {| md_title := orString title "";
               md_artist := orString artist "";
               md_album := orString album "";
               md_artwork :=
                 [ {| art_src := orString (orAttr artwork poster) "" |} ] |});;
  emit RegisterVideo.

(** [mutations] maps the name of each changed attribute to its new value;
    the tests [mutations[name]] are truthiness tests, the filter compares
    with [undefined]. *)
Definition mutatedAttributesCallback (mutations : gmap string JsValue)
  : M unit :=
  let* this := get in
  match video_ this with
  | None => ret tt
  | Some _ =>
      when (truthy (mutations !! "src"))
        (let* src := getAttribute "src" in assertHttpsUrl src);;
      let attrs :=
        List.filter (fun value => isDefined (mutations !! value))
          ATTRS_TO_PROPAGATE in
      (let* video := assertElementVideo in propagateAttributes attrs true);;
      when (truthy (mutations !! "src"))
        (dispatchCustomEvent RELOAD None);;
      when (truthy (mutations !! "artwork") || truthy (mutations !! "poster"))
        (let* artwork := getAttribute "artwork" in
         let* poster := getAttribute "poster" in
         modify (fun st =>
           let md := metadata_ st in
           with_metadata
             (mkMetadata (md_title md) (md_artist md) (md_album md)
                [ {| art_src := orString (orAttr artwork poster) "" |} ])
             st));;
      when (truthy (mutations !! "album"))
        (let* album := getAttribute "album" in
         modify (fun st =>
           let md := metadata_ st in
           with_metadata
             (mkMetadata (md_title md) (md_artist md) (orString album "")
                (md_artwork md))
             st));;
      when (truthy (mutations !! "title"))
        (let* title := getAttribute "title" in
         modify (fun st =>
           let md := metadata_ st in
           with_metadata
             (mkMetadata (orString title "") (md_artist md) (md_album md)
                (md_artwork md))
             st));;
      when (truthy (mutations !! "artist"))
        (let* artist := getAttribute "artist" in
         modify (fun st =>
           let md := metadata_ st in
           with_metadata
             (mkMetadata (md_title md) (orString artist "") (md_album md)
                (md_artwork md))
             st))
  end.

Definition viewportCallback (visible : bool) : M unit :=
  dispatchCustomEvent VISIBILITY (Some visible).

Definition isVideoSupported_ : M bool :=
  let* v := theVideo in
  ret (match v_play v with Some _ => true | None => false end).

(** [this.video_.appendChild(child)] for a child of the custom element: the
    node leaves the element, whose children become [remaining], and becomes
    the last child of the video. *)
Definition videoAppendChild (child : Node) (remaining : list Child)
  : M unit :=
  let* v := theVideo in
  setVideo (v_with_childNodes (v_childNodes v ++ [child]) v);;
  modify (with_children remaining).

(** The [forEach] over [this.getRealChildNodes()] in [layoutCallback].  The
    children are visited in document order; [kept] are those already passed
    that stay under the element (nodes the host does not count as real, and
    the video itself), [todo] those still ahead, so that the element's
    children are [kept ++ todo] before each visit. *)
Fixpoint forEachRealChild (kept todo : list Child) : M unit :=
  match todo with
  | [] => ret tt
  | TheVideo :: todo' => forEachRealChild (kept ++ [TheVideo]) todo'
  | Other child :: todo' =>
      if isInternalOrServiceNode child
      then forEachRealChild (kept ++ [Other child]) todo'
      else
        when (truthyAttr (nodeGetAttribute child "src"))
          (assertHttpsUrl (nodeGetAttribute child "src"));;
        videoAppendChild child (kept ++ todo');;
        forEachRealChild kept todo'
  end.

(** The first line re-assigns [video_] to itself through the assertion. *)
Definition layoutCallback : M Promise :=
  let* video := assertElementVideo in
  let* supported := isVideoSupported_ in
  if negb supported then
    toggleFallback true;;
    ret PromiseResolve
  else
    let* src := getAttribute "src" in
    when (truthyAttr src) (assertHttpsUrl src);;
    propagateAttributes ATTRS_TO_PROPAGATE_ON_LAYOUT true;;
    let* this := get in
    forEachRealChild [] (element_childNodes this);;
    ret (PromiseThen LoadPromise (dispatchCustomEvent LOAD None)).

(** The listener on [volumechange]. *)
Definition volumechangeListener : M unit :=
  let* this := get in
  let* v := theVideo in
  if negb (Bool.eqb (muted_ this) (v_muted v)) then
    modify (with_muted (v_muted v));;
    let* this' := get in
    let evt := if muted_ this' then MUTED else UNMUTED in
    dispatchCustomEvent evt None
  else ret tt.

(** The listener on [ended]. *)
Definition endedListener : M unit := dispatchCustomEvent PAUSE None.

Definition runListener (l : Listener) : M unit :=
  match l with
  | ForwardEvent e => dispatchCustomEvent e None
  | VolumechangeListener => volumechangeListener
  | EndedListener => endedListener
  end.

(** The native element fires an event: its listeners for that type run in
    the order they were added; a listener that throws does not keep the
    later ones from running. *)
Fixpoint runListeners (type : EventType) (ls : list (EventType * Listener))
  : M unit :=
  match ls with
  | [] => ret tt
  | (type', l) :: rest =>
      (if decide (type' = type)
       then (fun st => (Ok tt, snd (runListener l st)))
       else ret tt);;
      runListeners type rest
  end.

Definition videoFires (type : EventType) : M unit :=
  let* v := theVideo in runListeners type (v_listeners v).

(** [this.video_.pause()] is recorded as the effect [NativePause]. *)
Definition pauseCallback : M unit :=
  let* this := get in
  match video_ this with
  | Some _ => emit NativePause
  | None => ret tt
  end.

Definition supportsPlatform : M bool := isVideoSupported_.

Definition isInteractive : M bool := hasAttribute "controls".

(** A promise that has rejected and has no rejection handler by the end of
    the call is reported to the host as an unhandled rejection. *)
Definition endOfTask (r : PlayReturn) (handled : bool) : M unit :=
  match r with
  | PlayPromise (Some reason) =>
      when (negb handled)
        (modify (fun st =>
           with_unhandled (unhandledRejections st ++ [reason]) st))
  | _ => ret tt
  end.

(** Calling a missing [play] is a [TypeError].  [caught] says whether the
    test [ret && ret.catch] lets the empty [catch] handler be attached. *)
Definition play (unusedIsAutoplay : bool) : M unit :=
  let* v := theVideo in
  match v_play v with
  | None => throw TypeError
  | Some ret_ =>
      emit NativePlay;;
      let caught :=
        match ret_ with
        | PlayPromise _ => true
        | PlayUndefined => false
        end in
      endOfTask ret_ caught
  end.

Definition pause : M unit := theVideo;; emit NativePause.

Definition mute : M unit :=
  let* v := theVideo in setVideo (v_with_muted true v).

Definition unmute : M unit :=
  let* v := theVideo in setVideo (v_with_muted false v).

Definition showControls : M unit :=
  let* v := theVideo in setVideo (v_with_controls true v).

Definition hideControls : M unit :=
  let* v := theVideo in setVideo (v_with_controls false v).

Definition getMetadata : M MetadataDef :=
  let* this := get in ret (metadata_ this).

Definition preimplementsMediaSessionAPI : M bool := ret false.

(** *** Quantities the properties are stated with *)

(** The children a rebuild leaves under the element. *)
Definition staleChildren (st : AmpVideo) : list Child :=
  flat_map
    (fun c =>
       match c with
       | TheVideo =>
           match video_ st with
           | Some old => [Other (videoAsNode old)]
           | None => []
           end
       | Other n => [Other n]
       end)
    (element_childNodes st).

(** The value the https assertion refuses first among the real children,
    in document order, if it refuses any. *)
Fixpoint firstRefused (cs : list Child) : option (option string) :=
  match cs with
  | [] => None
  | TheVideo :: cs' => firstRefused cs'
  | Other child :: cs' =>
      if isInternalOrServiceNode child then firstRefused cs'
      else if truthyAttr (nodeGetAttribute child "src")
              && negb (passesHttpsAssert (nodeGetAttribute child "src"))
      then Some (nodeGetAttribute child "src")
      else firstRefused cs'
  end.

(** The children of the element a layout leaves in place, and the nodes it
    hands to the video element. *)
Definition spared (c : Child) : bool :=
  match c with
  | TheVideo => true
  | Other n => isInternalOrServiceNode n
  end.

Fixpoint realNodes (cs : list Child) : list Node :=
  match cs with
  | [] => []
  | TheVideo :: cs' => realNodes cs'
  | Other n :: cs' =>
      if isInternalOrServiceNode n then realNodes cs' else n :: realNodes cs'
  end.

(** Nothing but the placement of child nodes differs between two states of
    a built component. *)
Definition onlyChildrenMoved (st st' : AmpVideo) : Prop :=
  element_attributes st' = element_attributes st
  /\ muted_ st' = muted_ st
  /\ metadata_ st' = metadata_ st
  /\ effects st' = effects st
  /\ unhandledRejections st' = unhandledRejections st
  /\ exists v v',
       video_ st = Some v /\ video_ st' = Some v'
       /\ v_attributes v' = v_attributes v
       /\ v_listeners v' = v_listeners v
       /\ v_muted v' = v_muted v
       /\ v_controls v' = v_controls v
       /\ v_play v' = v_play v.

(** The promise a supported layout hands back. *)
Definition LAYOUT_PROMISE : Promise :=
  PromiseThen LoadPromise (dispatchCustomEvent LOAD None).

End AmpVideo.

(** ** The rules of the metadata record, in the words of the specification *)

(** "equal the element's like-named attribute (empty string when the
    attribute is absent)". *)
Definition attributeOrEmpty (attrs : gmap string string) (name : string)
  : string :=
  default "" (attrs !! name).

(** "the element's artwork attribute, falling back to the poster attribute,
    falling back to empty string", an attribute being passed over when it is
    absent or empty. *)
Definition artworkSource (attrs : gmap string string) : string :=
  match attrs !! "artwork", attrs !! "poster" with
  | Some (String c s), _ => String c s
  | _, Some p => p
  | _, None => ""
  end.

Definition derivedArtwork (attrs : gmap string string) : list Artwork :=
  [ {| art_src := artworkSource attrs |} ].

(** The record after a mutation: a field is derived anew when the mutation
    record holds a truthy value under one of its source attributes. *)
Definition updatedMetadata (attrs : gmap string string)
  (mutations : gmap string JsValue) (md : MetadataDef) : MetadataDef :=
  {| md_title :=
       if truthy (mutations !! "title")
       then attributeOrEmpty attrs "title" else md_title md;
     md_artist :=
       if truthy (mutations !! "artist")
       then attributeOrEmpty attrs "artist" else md_artist md;
     md_album :=
       if truthy (mutations !! "album")
       then attributeOrEmpty attrs "album" else md_album md;
     md_artwork :=
       if truthy (mutations !! "artwork") || truthy (mutations !! "poster")
       then derivedArtwork attrs else md_artwork md |}.

(** The attributes of a freshly built video element before propagation. *)
Definition BUILD_ATTRIBUTES : gmap string string :=
  <["preload" := "none"]>
    (<["webkit-playsinline" := ""]> (<["playsinline" := ""]> ∅)).

(** The attributes of the native element at the end of a build of an
    element with the attributes [attrs]: the build-time list propagated,
    then the class of [applyFillContent]. *)
Definition builtAttributes `{Host} (attrs : gmap string string)
  : gmap string string :=
  <["class" := fillContentClass None true]>
    (propagate attrs ATTRS_TO_PROPAGATE_ON_BUILD true BUILD_ATTRIBUTES).

(** The listeners a build installs, in order. *)
Definition BUILD_LISTENERS : list (EventType * Listener) :=
  [ (OfVideoEvent PLAYING, ForwardEvent PLAYING);
    (OfVideoEvent PAUSE, ForwardEvent PAUSE);
    (OfVideoEvent ENDED, ForwardEvent ENDED);
    (Volumechange, VolumechangeListener);
    (EndedEvent, EndedListener) ].

(** ** A sample host and sample documents *)

(** Modelled from the spec: the URL assertion of src/url is not among the
    sources; the spec has "any non-secure source URL" fail, a secure URL
    being an https one.  The sample host accepts the strings that start with
    the https scheme and refuses everything else, [null] included.  It
    counts as internal the elements marked [placeholder], and its
    [applyFillContent] adds the classes [fill] and, for replaced content,
    [replaced]. *)
Definition sampleHost (platform : option PlayReturn) : Host :=
  {| passesHttpsAssert := fun url =>
       match url with
       | Some u => String.prefix "https://" u
       | None => false
       end;
     isInternalOrServiceNode := fun n =>
       match nodeGetAttribute n "placeholder" with
       | Some _ => true
       | None => false
       end;
     development := true;
     EMPTY_METADATA := mkMetadata "" "" "" [ mkArtwork "" ];
     platformPlay := platform;
     fillContentClass := fun current replacedContent =>
       String.append
         match current with
         | Some classes => String.append classes " "
         | None => ""
         end
         (String.append "fill"
            (if replacedContent then " replaced" else "")) |}.

Definition modernPlatform : option PlayReturn := Some (PlayPromise None).

Definition rejectingPlatform : option PlayReturn :=
  Some (PlayPromise (Some "NotAllowedError")).

Definition legacyPlatform : option PlayReturn := None.

(** [<amp-video src=... album="Greatest Hits" poster=... controls autoplay>]
    with a [<source>] child, a placeholder and some text. *)
Definition sampleAttributes (src : string) : gmap string string :=
  <["src" := src]>
    (<["album" := "Greatest Hits"]>
       (<["poster" := "https://example.com/poster.png"]>
          (<["controls" := ""]> (<["autoplay" := ""]> ∅)))).

Definition sampleChildren (childSrc : string) : list Node :=
  [ ElementNode "img" (<["placeholder" := ""]> ∅) [];
    ElementNode "source" (<["src" := childSrc]> ∅) [];
    TextNode "Your browser does not play this video." ].

Definition INSECURE_URL : string := "http://example.com/movie.mp4".
Definition SECURE_URL : string := "https://example.com/movie.mp4".

Definition unbuilt (platform : option PlayReturn) (src childSrc : string)
  : AmpVideo :=
  constructor (H := sampleHost platform) (sampleAttributes src)
    (sampleChildren childSrc).

Definition built (platform : option PlayReturn) (src childSrc : string)
  : AmpVideo :=
  snd (buildCallback (H := sampleHost platform)
         (unbuilt platform src childSrc)).

(** The native element of [built]. *)
Definition builtVideo (platform : option PlayReturn) (src : string)
  : VideoElement :=
  {| v_attributes :=
       builtAttributes (H := sampleHost platform) (sampleAttributes src);
     v_childNodes := [];
     v_listeners := BUILD_LISTENERS;
     v_muted := false;
     v_controls := false;
     v_play := platform |}.

(** Mutation records as amp-bind hands them over: the new value of each
    changed attribute, [null] for an attribute it removed. *)
Definition srcMutation (url : string) : gmap string JsValue :=
  {[ "src" := JsString url ]}.

Definition srcRemoved : gmap string JsValue := {[ "src" := JsNull ]}.

Definition loopMutation : gmap string JsValue := {[ "loop" := JsString "" ]}.

(** A new [src] and a new [loop] reported together. *)
Definition srcAndLoopMutation (url : string) : gmap string JsValue :=
  <["src" := JsString url]> {[ "loop" := JsString "" ]}.

Definition albumMutation (album : string) : gmap string JsValue :=
  {[ "album" := JsString album ]}.

Definition albumRemoved : gmap string JsValue := {[ "album" := JsNull ]}.

Definition controlsRemoved : gmap string JsValue :=
  {[ "controls" := JsBool false ]}.

Definition autoplayMutation : gmap string JsValue :=
  {[ "autoplay" := JsString "" ]}.

(** The document sets an attribute of the custom element. *)
Definition elementSetAttribute (name value : string) (st : AmpVideo)
  : AmpVideo :=
  with_attributes (<[name := value]> (element_attributes st)) st.

(** The document drops an attribute of the custom element. *)
Definition elementRemoveAttribute (name : string) (st : AmpVideo)
  : AmpVideo :=
  with_attributes (delete name (element_attributes st)) st.

(** The user mutes the native element through its own controls. *)
Definition nativeMuted (b : bool) (st : AmpVideo) : AmpVideo :=
  with_video (v_with_muted b <$> video_ st) st.

(** ** The rest of the video interface *)

(** The [TimeRanges] object behind [this.video_.played]: its [length] and its
    accessors [start(i)] and [end(i)], which the browser defines for the
    indices below [length].  [Time] stands for the numbers of seconds. *)
Record TimeRanges (Time : Type) : Type := mkTimeRanges {
  tr_length : nat;
  tr_start : nat -> Time;
  tr_end : nat -> Time
}.
Arguments mkTimeRanges {Time} _ _ _.
Arguments tr_length {Time} _.
Arguments tr_start {Time} _ _.
Arguments tr_end {Time} _ _.

(** The [for] loop of [getPlayedRanges]: [i] is the loop variable,
    [remaining] the number of rounds until [i] reaches [length], [ranges]
    the array filled so far. *)
Fixpoint pushPlayedRanges {Time : Type} (played : TimeRanges Time)
  (i remaining : nat) (ranges : list (Time * Time)) : list (Time * Time) :=
  match remaining with
  | O => ranges
  | S remaining' =>
      pushPlayedRanges played (S i) remaining'
        (ranges ++ [ (tr_start played i, tr_end played i) ])
  end.

(** [played] is what the native element holds when the method reads
    [this.video_.played]; the read itself is a [TypeError] before the
    build. *)
Definition getPlayedRanges {Time : Type} (played : TimeRanges Time)
  : M (list (Time * Time)) :=
  theVideo;;
  let length := tr_length played in
  ret (pushPlayedRanges played 0 length []).

(** The coordinator calls [mute()] or [unmute()] and the native element
    answers the property write with [volumechange]. *)
Definition setMuted (muted : bool) : M unit :=
  (if muted then mute else unmute);;
  videoFires Volumechange.

Fixpoint setMutedEach (writes : list bool) : M unit :=
  match writes with
  | [] => ret tt
  | muted :: rest => setMuted muted;; setMutedEach rest
  end.

(** The writes of a sequence that change the value, [current] being the
    value before the first. *)
Fixpoint changes (current : bool) (writes : list bool) : list bool :=
  match writes with
  | [] => []
  | muted :: rest =>
      if Bool.eqb current muted then changes muted rest
      else muted :: changes muted rest
  end.

Definition mutedEvent (muted : bool) : Effect :=
  DispatchCustomEvent (if muted then MUTED else UNMUTED) None.

(** The record the rules give for a set of attributes. *)
Definition derivedMetadata (attrs : gmap string string) : MetadataDef :=
  {| md_title := attributeOrEmpty attrs "title";
     md_artist := attributeOrEmpty attrs "artist";
     md_album := attributeOrEmpty attrs "album";
     md_artwork := derivedArtwork attrs |}.

(** The attributes whose values the metadata record is made of. *)
Definition METADATA_SOURCES : list string :=
  [ "title"; "artist"; "album"; "artwork"; "poster" ].

(** The attributes a build sets on the native element for inline play. *)
Definition INLINE_ATTRIBUTES : list string :=
  [ "playsinline"; "webkit-playsinline" ].

(** The coordinator mutes, mutes again and unmutes. *)
Definition sampleWrites : list bool := [ true; true; false ].

(** Two played ranges, in seconds: [0, 12] and [30, 45]. *)
Definition samplePlayed : TimeRanges Z :=
  mkTimeRanges 2
    (fun i => match i with O => 0%Z | _ => 30%Z end)
    (fun i => match i with O => 12%Z | _ => 45%Z end).

(** * Properties of the embedding *)

(** Runs the host primitives and the plumbing of the monad, by value, so
    that the component record stays in constructor form between the steps
    of a callback. *)
Ltac run_primitives :=
  cbv beta iota zeta delta
    [emit dispatchCustomEvent toggleFallback setVideo videoSetAttribute
     applyFillContent
     propagateAttributes listen theVideo assertElementVideo getAttribute
     hasAttribute modify get when bind ret throw
     with_children with_video with_muted with_metadata with_effects
     with_unhandled v_with_attributes v_with_childNodes v_with_listeners
     v_with_muted v_with_controls
     element_attributes element_childNodes video_ muted_ metadata_ effects
     unhandledRejections
     v_attributes v_childNodes v_listeners v_muted v_controls v_play
     fst snd].

(** Evaluates each equation of a conjunction. *)
Ltac evaluate_each :=
  repeat match goal with
         | |- _ /\ _ => split
         end;
  vm_compute; reflexivity.

(** ** Attribute propagation touches the listed attributes only *)

Lemma propagate_lookup_other (from : gmap string string)
  (attributes : list string) (rm : bool) (target : gmap string string)
  (a : string) :
  a ∉ attributes ->
  propagate from attributes rm target !! a = target !! a.
Proof.
  revert target.
  induction attributes as [|b rest IH]; intros target Hnotin; [reflexivity|].
  apply not_elem_of_cons in Hnotin as [Hne Hrest].
  cbn [propagate]. rewrite IH by exact Hrest.
  destruct (from !! b) as [value|].
  - by rewrite lookup_insert_ne.
  - destruct rm; [by rewrite lookup_delete_ne | reflexivity].
Qed.

Lemma propagate_lookup_listed (from : gmap string string)
  (attributes : list string) (target : gmap string string) (a : string) :
  a ∈ attributes ->
  propagate from attributes true target !! a = from !! a.
Proof.
  revert target.
  induction attributes as [|b rest IH]; intros target Hin.
  - by apply elem_of_nil in Hin.
  - cbn [propagate].
    destruct (decide (a ∈ rest)) as [Hrest|Hrest]; [by apply IH|].
    apply elem_of_cons in Hin as [->|Hin]; [|contradiction].
    rewrite propagate_lookup_other by exact Hrest.
    destruct (from !! b) as [value|] eqn:Hb.
    + by rewrite lookup_insert_eq.
    + by rewrite lookup_delete_eq.
Qed.

(** ** The rules of the record as the code computes them *)

Lemma orString_attributeOrEmpty (attrs : gmap string string) (name : string) :
  orString (attrs !! name) "" = attributeOrEmpty attrs name.
Proof.
  unfold orString, attributeOrEmpty.
  destruct (attrs !! name) as [[|c s]|]; reflexivity.
Qed.

Lemma orString_artworkSource (attrs : gmap string string) :
  orString (orAttr (attrs !! "artwork") (attrs !! "poster")) ""
  = artworkSource attrs.
Proof.
  unfold orString, orAttr, artworkSource, truthyAttr.
  destruct (attrs !! "artwork") as [[|c s]|],
    (attrs !! "poster") as [[|c' s']|]; reflexivity.
Qed.

Section Properties.
Context `{Host}.

(** ** What each callback computes *)

Lemma mutated_built (st : AmpVideo) (v : VideoElement)
  (mutations : gmap string JsValue) :
  video_ st = Some v ->
  mutatedAttributesCallback mutations st =
    if truthy (mutations !! "src")
       && negb (passesHttpsAssert (element_attributes st !! "src"))
    then (Throw (UserAssertion (element_attributes st !! "src")), st)
    else
      (Ok tt,
       {| element_attributes := element_attributes st;
          element_childNodes := element_childNodes st;
          video_ :=
            Some (v_with_attributes
                    (propagate (element_attributes st)
                       (List.filter
                          (fun value => isDefined (mutations !! value))
                          ATTRS_TO_PROPAGATE)
                       true (v_attributes v)) v);
          muted_ := muted_ st;
          metadata_ :=
            updatedMetadata (element_attributes st) mutations (metadata_ st);
          effects :=
            if truthy (mutations !! "src")
            then effects st ++ [DispatchCustomEvent RELOAD None]
            else effects st;
          unhandledRejections := unhandledRejections st |}).
Proof.
  intros Hv. destruct st as [attrs kids vid mu [ti ar al aw] eff unh].
  simpl in Hv. subst vid.
  unfold mutatedAttributesCallback.
  set (l := List.filter _ ATTRS_TO_PROPAGATE). clearbody l.
  unfold updatedMetadata, derivedArtwork.
  rewrite <- !orString_attributeOrEmpty, <- orString_artworkSource.
  unfold bind, get, when, assertHttpsUrl, getAttribute, ret, throw; simpl.
  destruct (truthy (mutations !! "src")); simpl;
    [destruct (passesHttpsAssert (attrs !! "src")); simpl; [|reflexivity]|];
    destruct (truthy (mutations !! "artwork") || truthy (mutations !! "poster")),
      (truthy (mutations !! "album")), (truthy (mutations !! "title")),
      (truthy (mutations !! "artist")); reflexivity.
Qed.

Lemma mutated_unbuilt (st : AmpVideo) (mutations : gmap string JsValue) :
  video_ st = None -> mutatedAttributesCallback mutations st = (Ok tt, st).
Proof.
  intros Hv. unfold mutatedAttributesCallback, bind, get. by rewrite Hv.
Qed.

Lemma build_result (st : AmpVideo) :
  buildCallback st =
    (Ok tt,
     {| element_attributes := element_attributes st;
        element_childNodes := staleChildren st ++ [TheVideo];
        video_ :=
          Some {| v_attributes := builtAttributes (element_attributes st);
                  v_childNodes := [];
                  v_listeners := BUILD_LISTENERS;
                  v_muted := false;
                  v_controls := false;
                  v_play := platformPlay |};
        muted_ := muted_ st;
        metadata_ :=
          {| md_title := attributeOrEmpty (element_attributes st) "title";
             md_artist := attributeOrEmpty (element_attributes st) "artist";
             md_album := attributeOrEmpty (element_attributes st) "album";
             md_artwork := derivedArtwork (element_attributes st) |};
        effects :=
          (if negb (truthyAttr (element_attributes st !! "poster"))
              && development
           then effects st ++ [ConsoleError NO_POSTER_MESSAGE]
           else effects st)
          ++ [ApplyFillContent true; RegisterVideo];
        unhandledRejections := unhandledRejections st |}).
Proof.
  destruct st as [attrs kids vid mu md eff unh].
  assert (Hclass : propagate attrs ATTRS_TO_PROPAGATE_ON_BUILD true
                     BUILD_ATTRIBUTES !! "class" = None).
  { rewrite propagate_lookup_other; [reflexivity|].
    unfold ATTRS_TO_PROPAGATE_ON_BUILD. rewrite !not_elem_of_cons.
    repeat (split; [discriminate|]). apply not_elem_of_nil. }
  unfold derivedArtwork, builtAttributes.
  rewrite <- !orString_attributeOrEmpty, <- orString_artworkSource.
  unfold buildCallback.
  revert Hclass. set (l := ATTRS_TO_PROPAGATE_ON_BUILD). clearbody l.
  unfold staleChildren, BUILD_ATTRIBUTES, BUILD_LISTENERS.
  unfold createVideo, installEventHandlers_, forwardEvents, appendVideo.
  intros Hclass. run_primitives.
  destruct (negb (truthyAttr (attrs !! "poster")) && development);
    run_primitives; by rewrite Hclass, <- ?app_assoc.
Qed.

(** *** Layout *)

Lemma onlyChildrenMoved_refl (st : AmpVideo) (v : VideoElement) :
  video_ st = Some v -> onlyChildrenMoved st st.
Proof. intros Hv. repeat split. exists v, v. by repeat split. Qed.

Lemma onlyChildrenMoved_trans (st1 st2 st3 : AmpVideo) :
  onlyChildrenMoved st1 st2 -> onlyChildrenMoved st2 st3 ->
  onlyChildrenMoved st1 st3.
Proof.
  intros (A1 & A2 & A3 & A4 & A5 & v1 & v2 & Hv1 & Hv2 & B1 & B2 & B3 & B4 & B5)
         (C1 & C2 & C3 & C4 & C5 & w2 & w3 & Hw2 & Hw3 & D1 & D2 & D3 & D4 & D5).
  rewrite Hv2 in Hw2. injection Hw2 as <-.
  unfold onlyChildrenMoved.
  rewrite C1, C2, C3, C4, C5. repeat split; try assumption.
  exists v1, w3. repeat split; try assumption; congruence.
Qed.

Lemma videoAppendChild_run (child : Node) (remaining : list Child)
  (st : AmpVideo) (v : VideoElement) :
  video_ st = Some v ->
  videoAppendChild child remaining st =
    (Ok tt,
     with_children remaining
       (with_video
          (Some (v_with_childNodes (v_childNodes v ++ [child]) v)) st)).
Proof.
  intros Hv. destruct st as [attrs kids vid mu md eff unh].
  simpl in Hv. subst vid. reflexivity.
Qed.

Lemma forEachRealChild_outcome (todo : list Child) :
  forall (kept : list Child) (st : AmpVideo) (v : VideoElement),
    video_ st = Some v ->
    fst (forEachRealChild kept todo st) =
      match firstRefused todo with
      | Some u => Throw (UserAssertion u)
      | None => Ok tt
      end.
Proof.
  induction todo as [|[|child] todo IH]; intros kept st v Hv;
    cbn [forEachRealChild firstRefused].
  - reflexivity.
  - by eapply IH.
  - destruct (isInternalOrServiceNode child); [by eapply IH|].
    unfold bind at 1. unfold when, assertHttpsUrl.
    destruct (truthyAttr (nodeGetAttribute child "src")); cbn [andb negb].
    + destruct (passesHttpsAssert (nodeGetAttribute child "src"));
        cbn [negb ret throw]; [|reflexivity].
      unfold bind at 1. rewrite (videoAppendChild_run _ _ _ v Hv).
      by eapply IH.
    + cbn [ret]. unfold bind at 1.
      rewrite (videoAppendChild_run _ _ _ v Hv).
      by eapply IH.
Qed.

Lemma forEachRealChild_frame (todo : list Child) :
  forall (kept : list Child) (st : AmpVideo) (v : VideoElement),
    video_ st = Some v ->
    onlyChildrenMoved st (snd (forEachRealChild kept todo st)).
Proof.
  induction todo as [|[|child] todo IH]; intros kept st v Hv;
    cbn [forEachRealChild].
  - by eapply onlyChildrenMoved_refl.
  - by eapply IH.
  - destruct (isInternalOrServiceNode child); [by eapply IH|].
    assert (Hstep : onlyChildrenMoved st
              (with_children (kept ++ todo)
                 (with_video
                    (Some (v_with_childNodes (v_childNodes v ++ [child]) v))
                    st))).
    { repeat split. exists v. eexists. by repeat split. }
    unfold bind at 1. unfold when, assertHttpsUrl.
    destruct (truthyAttr (nodeGetAttribute child "src")).
    + destruct (passesHttpsAssert (nodeGetAttribute child "src"));
        cbn [ret throw snd]; [|by eapply onlyChildrenMoved_refl].
      unfold bind at 1. rewrite (videoAppendChild_run _ _ _ v Hv).
      eapply onlyChildrenMoved_trans; [exact Hstep|by eapply IH].
    + cbn [ret]. unfold bind at 1.
      rewrite (videoAppendChild_run _ _ _ v Hv).
      eapply onlyChildrenMoved_trans; [exact Hstep|by eapply IH].
Qed.

Lemma forEachRealChild_step (child : Node) (kept todo : list Child)
  (st : AmpVideo) (v : VideoElement) :
  video_ st = Some v ->
  isInternalOrServiceNode child = false ->
  truthyAttr (nodeGetAttribute child "src")
    && negb (passesHttpsAssert (nodeGetAttribute child "src")) = false ->
  forEachRealChild kept (Other child :: todo) st =
    forEachRealChild kept todo
      (with_children (kept ++ todo)
         (with_video
            (Some (v_with_childNodes (v_childNodes v ++ [child]) v)) st)).
Proof.
  intros Hv Hreal Hpass. cbn [forEachRealChild]. rewrite Hreal.
  unfold bind at 1. unfold when, assertHttpsUrl.
  destruct (truthyAttr (nodeGetAttribute child "src"));
    [destruct (passesHttpsAssert (nodeGetAttribute child "src"));
       [|discriminate]|];
    cbn [ret]; unfold bind at 1;
    by rewrite (videoAppendChild_run _ _ _ v Hv).
Qed.

Lemma forEachRealChild_migrates (todo : list Child) :
  forall (kept : list Child) (st : AmpVideo) (v : VideoElement),
    video_ st = Some v ->
    element_childNodes st = kept ++ todo ->
    firstRefused todo = None ->
    exists v',
      video_ (snd (forEachRealChild kept todo st)) = Some v'
      /\ element_childNodes (snd (forEachRealChild kept todo st))
         = kept ++ List.filter spared todo
      /\ v_childNodes v' = v_childNodes v ++ realNodes todo.
Proof.
  induction todo as [|[|child] todo IH]; intros kept st v Hv Hkids Hnone.
  - exists v. cbn. rewrite !app_nil_r. rewrite app_nil_r in Hkids. done.
  - cbn [forEachRealChild firstRefused realNodes List.filter spared] in *.
    change (kept ++ TheVideo :: List.filter spared todo)
      with (kept ++ [TheVideo] ++ List.filter spared todo).
    rewrite app_assoc.
    apply IH; [done| by rewrite <- app_assoc | done].
  - cbn [firstRefused realNodes List.filter spared] in *.
    destruct (isInternalOrServiceNode child) eqn:Hreal.
    { cbn [forEachRealChild]. rewrite Hreal.
      change (kept ++ Other child :: List.filter spared todo)
        with (kept ++ [Other child] ++ List.filter spared todo).
      rewrite app_assoc.
      apply IH; [done| by rewrite <- app_assoc | done]. }
    destruct (truthyAttr (nodeGetAttribute child "src")
              && negb (passesHttpsAssert (nodeGetAttribute child "src")))
      eqn:Hpass; [discriminate|].
    rewrite (forEachRealChild_step _ _ _ _ v Hv Hreal Hpass).
    edestruct (IH kept
                 (with_children (kept ++ todo)
                    (with_video
                       (Some (v_with_childNodes (v_childNodes v ++ [child]) v))
                       st))) as (v' & Hv' & Hk' & Hc'); [done..|].
    exists v'. split; [exact Hv'|]. split; [exact Hk'|].
    rewrite Hc'. cbn [v_with_childNodes v_childNodes].
    by rewrite <- app_assoc.
Qed.

Lemma layout_unbuilt (st : AmpVideo) :
  video_ st = None -> layoutCallback st = (Throw DevAssertion, st).
Proof.
  intros Hv. unfold layoutCallback, bind, assertElementVideo. by rewrite Hv.
Qed.

Lemma layout_unsupported_run (st : AmpVideo) (v : VideoElement) :
  video_ st = Some v -> v_play v = None ->
  layoutCallback st =
    (Ok PromiseResolve, with_effects (effects st ++ [ToggleFallback true]) st).
Proof.
  intros Hv Hplay. destruct st as [attrs kids vid mu md eff unh].
  simpl in Hv. subst vid.
  unfold layoutCallback, isVideoSupported_. run_primitives.
  destruct v as [va vk vl vm vc vp]. simpl in Hplay. subst vp.
  reflexivity.
Qed.

Lemma layout_supported_run (st : AmpVideo) (v : VideoElement)
  (native : PlayReturn) :
  video_ st = Some v -> v_play v = Some native ->
  layoutCallback st =
    if truthyAttr (element_attributes st !! "src")
       && negb (passesHttpsAssert (element_attributes st !! "src"))
    then (Throw (UserAssertion (element_attributes st !! "src")), st)
    else
      match
        forEachRealChild [] (element_childNodes st)
          (with_video
             (Some (v_with_attributes
                      (propagate (element_attributes st)
                         ATTRS_TO_PROPAGATE_ON_LAYOUT true (v_attributes v))
                      v))
             st)
      with
      | (Ok _, st') => (Ok LAYOUT_PROMISE, st')
      | (Throw e, st') => (Throw e, st')
      end.
Proof.
  intros Hv Hplay. destruct st as [attrs kids vid mu md eff unh].
  simpl in Hv. subst vid.
  destruct v as [va vk vl vm vc vp]. simpl in Hplay. subst vp.
  unfold layoutCallback, isVideoSupported_, assertHttpsUrl.
  set (l := ATTRS_TO_PROPAGATE_ON_LAYOUT). clearbody l.
  run_primitives. cbn [negb]. run_primitives.
  destruct (truthyAttr (attrs !! "src")); cbn [andb negb].
  - destruct (passesHttpsAssert (attrs !! "src")); cbn [negb];
      [|reflexivity].
    destruct (forEachRealChild _ _ _) as [[[]|e] st']; reflexivity.
  - destruct (forEachRealChild _ _ _) as [[[]|e] st']; reflexivity.
Qed.

Lemma getVideoSource_pure (st : AmpVideo) :
  exists videoSrc, getVideoSource_ st = (Ok videoSrc, st).
Proof.
  destruct st as [attrs kids vid mu md eff unh].
  unfold getVideoSource_, elementByTag. run_primitives.
  destruct (negb (truthyAttr (attrs !! "src"))); [|by eexists].
  destruct (firstByTagInChildren _ _ _); by eexists.
Qed.

Lemma preconnect_run (st : AmpVideo) (videoSrc : option string)
  (opt_onLayout : option bool) :
  getVideoSource_ st = (Ok videoSrc, st) ->
  preconnectCallback opt_onLayout st =
    if truthyAttr videoSrc
    then
      if passesHttpsAssert videoSrc
      then (Ok tt,
            with_effects
              (effects st ++ [PreconnectUrl (orString videoSrc "") opt_onLayout])
              st)
      else (Throw (UserAssertion videoSrc), st)
    else (Ok tt, st).
Proof.
  intros Hsrc. unfold preconnectCallback. unfold bind at 1. rewrite Hsrc.
  unfold when, assertHttpsUrl.
  destruct (truthyAttr videoSrc); [|reflexivity].
  destruct (passesHttpsAssert videoSrc); reflexivity.
Qed.

Lemma firstRefused_exists (cs : list Child) (child : Node) :
  Other child ∈ cs ->
  isInternalOrServiceNode child = false ->
  truthyAttr (nodeGetAttribute child "src") = true ->
  passesHttpsAssert (nodeGetAttribute child "src") = false ->
  exists refused,
    firstRefused cs = Some refused
    /\ truthyAttr refused = true /\ passesHttpsAssert refused = false.
Proof.
  intros Hin Hreal Htruthy Hpass.
  induction cs as [|[|n] cs IH]; cbn [firstRefused].
  - by apply elem_of_nil in Hin.
  - apply elem_of_cons in Hin as [Hin|Hin]; [discriminate|by apply IH].
  - destruct (isInternalOrServiceNode n) eqn:Hn.
    + apply elem_of_cons in Hin as [Hin|Hin]; [|by apply IH].
      injection Hin as ->. congruence.
    + destruct (truthyAttr (nodeGetAttribute n "src")) eqn:Ht;
        cbn [andb].
      * destruct (passesHttpsAssert (nodeGetAttribute n "src")) eqn:Hp;
          cbn [negb]; [|by eexists].
        apply elem_of_cons in Hin as [Hin|Hin]; [|by apply IH].
        injection Hin as ->. congruence.
      * apply elem_of_cons in Hin as [Hin|Hin]; [|by apply IH].
        injection Hin as ->. congruence.
Qed.

Lemma volumechange_run (st : AmpVideo) (v : VideoElement) :
  video_ st = Some v ->
  volumechangeListener st =
    if Bool.eqb (muted_ st) (v_muted v)
    then (Ok tt, st)
    else (Ok tt,
          with_effects
            (effects st
               ++ [DispatchCustomEvent (if v_muted v then MUTED else UNMUTED)
                     None])
            (with_muted (v_muted v) st)).
Proof.
  intros Hv. destruct st as [attrs kids vid mu md eff unh].
  simpl in Hv. subst vid. destruct v as [va vk vl vm vc vp].
  unfold volumechangeListener. run_primitives.
  destruct (Bool.eqb mu vm); cbn [negb]; run_primitives; reflexivity.
Qed.

Lemma elem_of_filter_defined (mutations : gmap string JsValue) (a : string) :
  a ∈ List.filter (fun value => isDefined (mutations !! value))
        ATTRS_TO_PROPAGATE
  <-> a ∈ ATTRS_TO_PROPAGATE /\ isDefined (mutations !! a) = true.
Proof. rewrite !list_elem_of_In. apply filter_In. Qed.

(** What a layout does to the attributes of the native element. *)
Lemma layout_attributes (st : AmpVideo) (v : VideoElement) :
  video_ st = Some v ->
  exists v',
    video_ (snd (layoutCallback st)) = Some v'
    /\ (v_attributes v' = v_attributes v
        \/ v_attributes v' =
             propagate (element_attributes st) ATTRS_TO_PROPAGATE_ON_LAYOUT
               true (v_attributes v))
    /\ (forall native : PlayReturn,
          v_play v = Some native ->
          truthyAttr (element_attributes st !! "src")
            && negb (passesHttpsAssert (element_attributes st !! "src"))
          = false ->
          v_attributes v' =
            propagate (element_attributes st) ATTRS_TO_PROPAGATE_ON_LAYOUT
              true (v_attributes v)).
Proof.
  intros Hv. destruct (v_play v) as [native|] eqn:Hplay.
  - rewrite (layout_supported_run st v native Hv Hplay).
    destruct (truthyAttr (element_attributes st !! "src")
              && negb (passesHttpsAssert (element_attributes st !! "src"))).
    { exists v. split; [done|]. split; [by left|discriminate]. }
    set (st1 := with_video _ st).
    pose proof (forEachRealChild_frame (element_childNodes st) [] st1
                  _ eq_refl)
      as (_ & _ & _ & _ & _ & w & v' & Hw & Hv' & Hattrs & _).
    injection Hw as <-. cbn [v_with_attributes v_attributes] in Hattrs.
    exists v'. split.
    { by destruct (forEachRealChild [] (element_childNodes st) st1)
        as [[[]|e] st']. }
    split; [by right|done].
  - rewrite (layout_unsupported_run st v Hv Hplay).
    exists v. split; [done|]. split; [by left|discriminate].
Qed.

(** ** The claims *)

(** C10.  Before [buildCallback] has made the native element ([video_] is
    still [null]), [mutatedAttributesCallback] and [pauseCallback] return
    normally and leave the whole component as it was: its fields, the
    attributes, the metadata record and the record of effects. *)
Theorem callbacks_before_build_do_nothing (st : AmpVideo)
  (mutations : gmap string JsValue) :
  video_ st = None ->
  mutatedAttributesCallback mutations st = (Ok tt, st)
  /\ pauseCallback st = (Ok tt, st).
Proof.
  intros Hv. split; [by apply mutated_unbuilt|].
  unfold pauseCallback, bind, get. by rewrite Hv.
Qed.

(** C7.  After the [volumechange] listener has run, [muted_] equals the
    native element's muted flag; it dispatches one event, MUTED when the
    flag is set and UNMUTED when it is clear, exactly when the flag differed
    from [muted_], and nothing when they agreed.  The listener is the one a
    build leaves on the native element for [volumechange]. *)
Theorem muted_mirrors_native_flag (st : AmpVideo) (v : VideoElement) :
  video_ st = Some v ->
  (exists st',
     volumechangeListener st = (Ok tt, st')
     /\ muted_ st' = v_muted v
     /\ video_ st' = Some v
     /\ effects st' =
          effects st ++
            (if Bool.eqb (muted_ st) (v_muted v) then []
             else [DispatchCustomEvent
                     (if v_muted v then MUTED else UNMUTED) None]))
  /\ (v_listeners v = BUILD_LISTENERS ->
      videoFires Volumechange st = (Ok tt, snd (volumechangeListener st))).
Proof.
  intros Hv. split.
  - rewrite (volumechange_run st v Hv).
    destruct (Bool.eqb (muted_ st) (v_muted v)) eqn:Heq.
    + exists st. apply Bool.eqb_prop in Heq.
      repeat split; [done..|by rewrite app_nil_r].
    + eexists. split; [reflexivity|]. repeat split. exact Hv.
  - intros Hl. unfold videoFires, theVideo. unfold bind at 1.
    rewrite Hv, Hl. unfold BUILD_LISTENERS.
    cbn [runListeners runListener].
    repeat (case_decide; [discriminate|]).
    case_decide; [|done].
    repeat (case_decide; [discriminate|]).
    unfold bind, ret. by destruct (volumechangeListener st).
Qed.

(** C2.  When the native element has no [play], [layoutCallback] turns the
    fallback on and returns a promise that is already fulfilled.  Nothing
    else changes: no attribute reaches the native element, no child moves,
    no event is dispatched, and nothing is thrown. *)
Theorem unsupported_layout_falls_back (st : AmpVideo) (v : VideoElement) :
  video_ st = Some v -> v_play v = None ->
  layoutCallback st =
    (Ok PromiseResolve, with_effects (effects st ++ [ToggleFallback true]) st)
  /\ forall (signal : LoadSignal) (st' : AmpVideo),
       settle signal PromiseResolve st' = (Fulfilled, st').
Proof.
  intros Hv Hplay. split; [by eapply layout_unsupported_run|done].
Qed.

(** C5.  When the native [play] returns a promise that rejects, whatever
    the reason, [play] returns normally with no value, and the rejection is
    not reported as unhandled: the only trace of the call is the native
    call itself. *)
Theorem play_swallows_rejection (st : AmpVideo) (v : VideoElement)
  (reason : string) (unusedIsAutoplay : bool) :
  video_ st = Some v ->
  v_play v = Some (PlayPromise (Some reason)) ->
  play unusedIsAutoplay st =
    (Ok tt, with_effects (effects st ++ [NativePlay]) st)
  /\ unhandledRejections (snd (play unusedIsAutoplay st))
     = unhandledRejections st.
Proof.
  intros Hv Hplay. destruct st as [attrs kids vid mu md eff unh].
  simpl in Hv. subst vid. destruct v as [va vk vl vm vc vp].
  simpl in Hplay. subst vp. split; reflexivity.
Qed.

(** C8, amended.  On a built component [mutatedAttributesCallback]
    dispatches RELOAD, once, exactly when the mutation record holds a truthy
    value under [src] and the element's [src] passes the https assertion;
    otherwise it dispatches nothing.  [viewportCallback] dispatches
    VISIBILITY with the flag it was given, on every call. *)
Theorem reload_and_visibility (st : AmpVideo) :
  (forall (v : VideoElement) (mutations : gmap string JsValue),
     video_ st = Some v ->
     effects (snd (mutatedAttributesCallback mutations st)) =
       if truthy (mutations !! "src")
          && passesHttpsAssert (element_attributes st !! "src")
       then effects st ++ [DispatchCustomEvent RELOAD None]
       else effects st)
  /\ (forall visible : bool,
        viewportCallback visible st =
          (Ok tt,
           with_effects
             (effects st ++ [DispatchCustomEvent VISIBILITY (Some visible)])
             st)).
Proof.
  split; [|reflexivity].
  intros v mutations Hv. rewrite (mutated_built st v mutations Hv).
  destruct (truthy (mutations !! "src")),
    (passesHttpsAssert (element_attributes st !! "src")); reflexivity.
Qed.

(** C1, amended.  A source URL that does not pass the https assertion
    makes the callback that reads it fail with the user assertion, where the
    callback does read it:
    - [preconnectCallback], for a resolved source that is not empty; no
      preconnect is issued;
    - [layoutCallback] on a built component whose native element can play,
      for a non-empty [src] of the element (the component is left as it
      was) and for a non-empty [src] of any real child (the value refused is
      then a non-secure one and no event has been dispatched);
    - [mutatedAttributesCallback] on a built component, when the mutation
      record holds a truthy value under [src]; the component is left as it
      was. *)
Theorem insecure_source_fails (st : AmpVideo) :
  (forall (opt_onLayout : option bool) (u : string),
     fst (getVideoSource_ st) = Ok (Some u) ->
     u <> "" ->
     passesHttpsAssert (Some u) = false ->
     preconnectCallback opt_onLayout st = (Throw (UserAssertion (Some u)), st))
  /\ (forall (v : VideoElement) (native : PlayReturn),
        video_ st = Some v ->
        v_play v = Some native ->
        (forall u : string,
           element_attributes st !! "src" = Some u ->
           u <> "" ->
           passesHttpsAssert (Some u) = false ->
           layoutCallback st = (Throw (UserAssertion (Some u)), st))
        /\ (forall (child : Node) (u : string),
              Other child ∈ element_childNodes st ->
              isInternalOrServiceNode child = false ->
              nodeGetAttribute child "src" = Some u ->
              u <> "" ->
              passesHttpsAssert (Some u) = false ->
              exists refused st',
                layoutCallback st = (Throw (UserAssertion refused), st')
                /\ passesHttpsAssert refused = false
                /\ effects st' = effects st))
  /\ (forall (v : VideoElement) (mutations : gmap string JsValue),
        video_ st = Some v ->
        truthy (mutations !! "src") = true ->
        passesHttpsAssert (element_attributes st !! "src") = false ->
        mutatedAttributesCallback mutations st =
          (Throw (UserAssertion (element_attributes st !! "src")), st)).
Proof.
  assert (Hnonempty : forall u, u <> "" -> truthyAttr (Some u) = true).
  { intros [|c u] Hu; [done|reflexivity]. }
  split; [|split].
  - intros opt_onLayout u Hsrc Hu Hpass.
    destruct (getVideoSource_pure st) as [videoSrc Hrun].
    rewrite Hrun in Hsrc. injection Hsrc as ->.
    rewrite (preconnect_run st _ opt_onLayout Hrun).
    by rewrite (Hnonempty u Hu), Hpass.
  - intros v native Hv Hplay. split.
    + intros u Hsrc Hu Hpass.
      rewrite (layout_supported_run st v native Hv Hplay), Hsrc.
      by rewrite (Hnonempty u Hu), Hpass.
    + intros child u Hin Hreal Hsrc Hu Hpass.
      rewrite (layout_supported_run st v native Hv Hplay).
      destruct (truthyAttr (element_attributes st !! "src")
                && negb (passesHttpsAssert (element_attributes st !! "src")))
        eqn:Hown.
      * exists (element_attributes st !! "src"), st.
        apply andb_prop in Hown as [_ Hown].
        apply negb_true_iff in Hown. done.
      * destruct (firstRefused_exists (element_childNodes st) child Hin Hreal)
          as (refused & Hfirst & _ & Hrefused).
        { rewrite Hsrc. by apply Hnonempty. }
        { by rewrite Hsrc. }
        set (st1 := with_video _ st).
        pose proof (forEachRealChild_outcome (element_childNodes st) [] st1
                      _ eq_refl) as Hout.
        pose proof (forEachRealChild_frame (element_childNodes st) [] st1
                      _ eq_refl) as (_ & _ & _ & Heff & _).
        rewrite Hfirst in Hout.
        destruct (forEachRealChild [] (element_childNodes st) st1)
          as [[[]|e] st'] eqn:Hrun; cbn [fst snd] in *; [discriminate|].
        injection Hout as ->. by exists refused, st'.
  - intros v mutations Hv Htruthy Hpass.
    by rewrite (mutated_built st v mutations Hv), Htruthy, Hpass.
Qed.

(** C3, amended.  After [buildCallback], [getMetadata] returns the record
    whose title, artist and album are the element's like-named attributes,
    the empty string when the attribute is absent, and whose artwork is the
    one-entry list with the [artwork] attribute as [src], falling back to
    [poster] and then to the empty string, an absent or empty attribute
    being passed over.  On a built component, a [mutatedAttributesCallback]
    that returns derives anew, by the same rules, the fields for which the
    mutation record holds a truthy value under one of their source
    attributes, and keeps the other fields; it returns whenever the https
    assertion on [src] does not fire. *)
Theorem metadata_follows_attributes (st : AmpVideo) :
  (exists st',
     buildCallback st = (Ok tt, st')
     /\ element_attributes st' = element_attributes st
     /\ getMetadata st' =
          (Ok {| md_title := attributeOrEmpty (element_attributes st) "title";
                 md_artist :=
                   attributeOrEmpty (element_attributes st) "artist";
                 md_album := attributeOrEmpty (element_attributes st) "album";
                 md_artwork :=
                   [ {| art_src := artworkSource (element_attributes st) |} ]
              |},
           st'))
  /\ (forall (v : VideoElement) (mutations : gmap string JsValue),
        video_ st = Some v ->
        (truthy (mutations !! "src")
           && negb (passesHttpsAssert (element_attributes st !! "src"))
         = false ->
         fst (mutatedAttributesCallback mutations st) = Ok tt)
        /\ (forall st',
              mutatedAttributesCallback mutations st = (Ok tt, st') ->
              element_attributes st' = element_attributes st
              /\ getMetadata st' =
                   (Ok (updatedMetadata (element_attributes st) mutations
                          (metadata_ st)),
                    st'))).
Proof.
  split.
  - eexists. split; [apply build_result|]. split; reflexivity.
  - intros v mutations Hv. rewrite (mutated_built st v mutations Hv). split.
    + by intros ->.
    + intros st'.
      destruct (truthy (mutations !! "src")
                && negb (passesHttpsAssert (element_attributes st !! "src")));
        [discriminate|].
      intros [= <-]. split; reflexivity.
Qed.

(** C4, amended.  The attributes that reach the native element are those
    of a fixed list, split in two.  [buildCallback] gives the native element
    the build-time ones (aria-describedby, aria-label, aria-labelledby,
    controls, crossorigin, poster, controlsList) as the custom element has
    them; besides the class that [applyFillContent] gives it, every other
    attribute is the one a fresh element gets whatever the custom element
    carries.  [layoutCallback] gives it the layout-time ones (src, loop,
    preload) when the native element can play and the element's [src] is
    not refused, and otherwise leaves its attributes as they were.
    [mutatedAttributesCallback] on a built component gives it, when it
    returns, the listed attributes that are defined in the mutation record,
    and leaves its attributes as they were when it fails.  In no case does a
    layout or a mutation callback change an attribute that is not on the
    list it passes. *)
Theorem propagation_follows_whitelist (st : AmpVideo) :
  ATTRS_TO_PROPAGATE_ON_BUILD =
    [ "aria-describedby"; "aria-label"; "aria-labelledby"; "controls";
      "crossorigin"; "poster"; "controlsList" ]
  /\ ATTRS_TO_PROPAGATE_ON_LAYOUT = [ "src"; "loop"; "preload" ]
  /\ ATTRS_TO_PROPAGATE =
       ATTRS_TO_PROPAGATE_ON_BUILD ++ ATTRS_TO_PROPAGATE_ON_LAYOUT
  /\ (exists v',
        video_ (snd (buildCallback st)) = Some v'
        /\ (forall a : string,
              a ∈ ATTRS_TO_PROPAGATE_ON_BUILD ->
              v_attributes v' !! a = element_attributes st !! a)
        /\ (forall a : string,
              a ∉ ATTRS_TO_PROPAGATE_ON_BUILD ->
              a <> "class" ->
              v_attributes v' !! a = BUILD_ATTRIBUTES !! a)
        /\ v_attributes v' !! "class" = Some (fillContentClass None true))
  /\ (forall v : VideoElement,
        video_ st = Some v ->
        exists v',
          video_ (snd (layoutCallback st)) = Some v'
          /\ (forall a : string,
                a ∉ ATTRS_TO_PROPAGATE_ON_LAYOUT ->
                v_attributes v' !! a = v_attributes v !! a)
          /\ (forall native : PlayReturn,
                v_play v = Some native ->
                truthyAttr (element_attributes st !! "src")
                  && negb (passesHttpsAssert (element_attributes st !! "src"))
                = false ->
                forall a : string,
                  a ∈ ATTRS_TO_PROPAGATE_ON_LAYOUT ->
                  v_attributes v' !! a = element_attributes st !! a)
          /\ (v_play v = None
              \/ truthyAttr (element_attributes st !! "src")
                   && negb (passesHttpsAssert
                              (element_attributes st !! "src"))
                 = true ->
              v_attributes v' = v_attributes v))
  /\ (forall (v : VideoElement) (mutations : gmap string JsValue),
        video_ st = Some v ->
        exists v',
          video_ (snd (mutatedAttributesCallback mutations st)) = Some v'
          /\ (forall a : string,
                a ∉ ATTRS_TO_PROPAGATE \/ mutations !! a = None ->
                v_attributes v' !! a = v_attributes v !! a)
          /\ (fst (mutatedAttributesCallback mutations st) = Ok tt ->
              forall a : string,
                a ∈ ATTRS_TO_PROPAGATE ->
                isDefined (mutations !! a) = true ->
                v_attributes v' !! a = element_attributes st !! a)
          /\ (fst (mutatedAttributesCallback mutations st) <> Ok tt ->
              v_attributes v' = v_attributes v)).
Proof.
  do 3 (split; [reflexivity|]). split; [|split].
  - rewrite build_result. eexists. split; [reflexivity|].
    cbn [v_attributes]. unfold builtAttributes.
    assert (Hclass : "class" ∉ ATTRS_TO_PROPAGATE_ON_BUILD).
    { unfold ATTRS_TO_PROPAGATE_ON_BUILD. rewrite !not_elem_of_cons.
      repeat (split; [discriminate|]). apply not_elem_of_nil. }
    split; [|split].
    + intros a Ha. rewrite lookup_insert_ne by (by intros <-).
      by apply propagate_lookup_listed.
    + intros a Ha Hne. rewrite lookup_insert_ne by done.
      by apply propagate_lookup_other.
    + by rewrite lookup_insert_eq.
  - intros v Hv.
    destruct (layout_attributes st v Hv) as (v' & Hv' & Hframe & Hdone).
    exists v'. split; [exact Hv'|]. split; [|split].
    + intros a Ha. destruct Hframe as [->| ->]; [done|].
      by apply propagate_lookup_other.
    + intros native Hplay Hsrc a Ha.
      rewrite (Hdone native Hplay Hsrc). by apply propagate_lookup_listed.
    + intros Hcase. revert Hv'. destruct (v_play v) as [native|] eqn:Hplay.
      * destruct Hcase as [?|Hrefused]; [discriminate|].
        rewrite (layout_supported_run st v native Hv Hplay), Hrefused.
        cbn [snd]. rewrite Hv. by intros [= <-].
      * rewrite (layout_unsupported_run st v Hv Hplay). cbn [snd].
        change (video_ (with_effects (effects st ++ [ToggleFallback true]) st))
          with (video_ st).
        rewrite Hv. by intros [= <-].
  - intros v mutations Hv. rewrite (mutated_built st v mutations Hv).
    destruct (truthy (mutations !! "src")
              && negb (passesHttpsAssert (element_attributes st !! "src"))).
    + exists v. split; [done|]. split; [done|]. split; [discriminate|done].
    + eexists. split; [reflexivity|].
      cbn [v_with_attributes v_attributes fst]. split; [|split].
      * intros a Ha. apply propagate_lookup_other.
        rewrite elem_of_filter_defined. intros [Hlisted Hdefined].
        destruct Ha as [Ha|Ha]; [done|]. by rewrite Ha in Hdefined.
      * intros _ a Hlisted Hdefined. apply propagate_lookup_listed.
        by apply elem_of_filter_defined.
      * intros Hfail. by destruct Hfail.
Qed.

(** C9.  [autoplay] is on neither list, and no callback carries it to the
    native element: the element a build makes has no [autoplay] whatever
    the custom element carries, and a layout or a mutation callback leaves
    the native element's [autoplay] as it was, however the call ends. *)
Theorem autoplay_is_never_propagated (st : AmpVideo) :
  ("autoplay" ∉ ATTRS_TO_PROPAGATE_ON_BUILD)
  /\ ("autoplay" ∉ ATTRS_TO_PROPAGATE_ON_LAYOUT)
  /\ (exists v',
        video_ (snd (buildCallback st)) = Some v'
        /\ v_attributes v' !! "autoplay" = None)
  /\ (forall v : VideoElement,
        video_ st = Some v ->
        exists v',
          video_ (snd (layoutCallback st)) = Some v'
          /\ v_attributes v' !! "autoplay" = v_attributes v !! "autoplay")
  /\ (forall (v : VideoElement) (mutations : gmap string JsValue),
        video_ st = Some v ->
        exists v',
          video_ (snd (mutatedAttributesCallback mutations st)) = Some v'
          /\ v_attributes v' !! "autoplay" = v_attributes v !! "autoplay").
Proof.
  assert (Hbuild : "autoplay" ∉ ATTRS_TO_PROPAGATE_ON_BUILD).
  { unfold ATTRS_TO_PROPAGATE_ON_BUILD. rewrite !not_elem_of_cons.
    repeat (split; [discriminate|]). apply not_elem_of_nil. }
  assert (Hlayout : "autoplay" ∉ ATTRS_TO_PROPAGATE_ON_LAYOUT).
  { unfold ATTRS_TO_PROPAGATE_ON_LAYOUT. rewrite !not_elem_of_cons.
    repeat (split; [discriminate|]). apply not_elem_of_nil. }
  do 2 (split; [assumption|]). split; [|split].
  - rewrite build_result. eexists. split; [reflexivity|].
    cbn [v_attributes]. unfold builtAttributes.
    rewrite lookup_insert_ne by discriminate.
    by rewrite propagate_lookup_other.
  - intros v Hv.
    destruct (layout_attributes st v Hv) as (v' & Hv' & Hframe & _).
    exists v'. split; [exact Hv'|].
    destruct Hframe as [->| ->]; [done|].
    by apply propagate_lookup_other.
  - intros v mutations Hv. rewrite (mutated_built st v mutations Hv).
    destruct (truthy (mutations !! "src")
              && negb (passesHttpsAssert (element_attributes st !! "src"))).
    + by exists v.
    + eexists. split; [reflexivity|].
      cbn [v_with_attributes v_attributes]. apply propagate_lookup_other.
      rewrite elem_of_filter_defined. intros [Hlisted _].
      unfold ATTRS_TO_PROPAGATE in Hlisted.
      apply elem_of_app in Hlisted as [?|?]; contradiction.
Qed.

(** C6.  Where the native element can play, [layoutCallback] itself
    dispatches nothing, and hands back a promise unless an https assertion
    fails.  As long as the native element's ready signal has not come, that
    promise is pending and LOAD has not been dispatched; once the signal has
    come, LOAD is dispatched and the promise is fulfilled after it; when the
    signal fails, LOAD is never dispatched and the promise is rejected. *)
Theorem load_is_announced_after_ready (st : AmpVideo) (v : VideoElement)
  (native : PlayReturn) :
  video_ st = Some v ->
  v_play v = Some native ->
  effects (snd (layoutCallback st)) = effects st
  /\ (truthyAttr (element_attributes st !! "src")
        && negb (passesHttpsAssert (element_attributes st !! "src")) = false ->
      firstRefused (element_childNodes st) = None ->
      fst (layoutCallback st) = Ok LAYOUT_PROMISE)
  /\ (forall (p : Promise) (st' : AmpVideo),
        layoutCallback st = (Ok p, st') ->
        settle NotYet p st' = (Pending, st')
        /\ settle LoadStarted p st' =
             (Fulfilled,
              with_effects (effects st' ++ [DispatchCustomEvent LOAD None])
                st')
        /\ settle LoadFailed p st' = (Rejected, st')).
Proof.
  intros Hv Hplay. rewrite (layout_supported_run st v native Hv Hplay).
  destruct (truthyAttr (element_attributes st !! "src")
            && negb (passesHttpsAssert (element_attributes st !! "src"))).
  { split; [reflexivity|]. split; [discriminate|]. intros p st' [=]. }
  set (st1 := with_video _ st).
  pose proof (forEachRealChild_outcome (element_childNodes st) [] st1
                _ eq_refl) as Hout.
  pose proof (forEachRealChild_frame (element_childNodes st) [] st1
                _ eq_refl) as (_ & _ & _ & Heff & _).
  destruct (forEachRealChild [] (element_childNodes st) st1)
    as [[[]|e] st2]; cbn [fst snd] in *.
  - split; [exact Heff|]. split; [reflexivity|].
    intros p st' [= <- <-]. repeat split.
  - split; [exact Heff|]. split; [|intros p st' [=]].
    intros _ Hnone. rewrite Hnone in Hout. discriminate.
Qed.

End Properties.

(** ** The claims on the sample documents *)

(** C10 on a sample element that has not been built. *)
Lemma callbacks_before_build_do_nothing_witness :
  video_ (unbuilt modernPlatform INSECURE_URL INSECURE_URL) = None
  /\ mutatedAttributesCallback (H := sampleHost modernPlatform)
       (srcMutation INSECURE_URL)
       (unbuilt modernPlatform INSECURE_URL INSECURE_URL)
     = (Ok tt, unbuilt modernPlatform INSECURE_URL INSECURE_URL)
  /\ pauseCallback (unbuilt modernPlatform INSECURE_URL INSECURE_URL)
     = (Ok tt, unbuilt modernPlatform INSECURE_URL INSECURE_URL).
Proof.
  split; [reflexivity|].
  apply (callbacks_before_build_do_nothing (H := sampleHost modernPlatform)).
  reflexivity.
Defined.

(** C7 on a built sample whose native element has just been muted. *)
Lemma muted_mirrors_native_flag_witness :
  video_ (nativeMuted true (built modernPlatform SECURE_URL SECURE_URL))
  = Some (v_with_muted true (builtVideo modernPlatform SECURE_URL))
  /\ exists st',
       volumechangeListener
         (nativeMuted true (built modernPlatform SECURE_URL SECURE_URL))
       = (Ok tt, st')
       /\ muted_ st' = true
       /\ effects st' =
            effects (built modernPlatform SECURE_URL SECURE_URL)
              ++ [DispatchCustomEvent MUTED None].
Proof.
  assert (Hv : video_ (nativeMuted true
                         (built modernPlatform SECURE_URL SECURE_URL))
               = Some (v_with_muted true
                         (builtVideo modernPlatform SECURE_URL))).
  { vm_compute. reflexivity. }
  split; [exact Hv|].
  destruct (muted_mirrors_native_flag _ _ Hv)
    as [(st' & Hrun & Hmuted & _ & Heffects) _].
  exists st'. split; [exact Hrun|]. split; [exact Hmuted|exact Heffects].
Defined.

(** C2 on a built sample on a platform without [play]. *)
Lemma unsupported_layout_falls_back_witness :
  video_ (built legacyPlatform INSECURE_URL INSECURE_URL)
  = Some (builtVideo legacyPlatform INSECURE_URL)
  /\ v_play (builtVideo legacyPlatform INSECURE_URL) = None
  /\ layoutCallback (H := sampleHost legacyPlatform)
       (built legacyPlatform INSECURE_URL INSECURE_URL)
     = (Ok PromiseResolve,
        with_effects
          (effects (built legacyPlatform INSECURE_URL INSECURE_URL)
             ++ [ToggleFallback true])
          (built legacyPlatform INSECURE_URL INSECURE_URL)).
Proof.
  assert (Hv : video_ (built legacyPlatform INSECURE_URL INSECURE_URL)
               = Some (builtVideo legacyPlatform INSECURE_URL)).
  { vm_compute. reflexivity. }
  split; [exact Hv|]. split; [reflexivity|].
  apply (unsupported_layout_falls_back (H := sampleHost legacyPlatform)
           _ _ Hv).
  reflexivity.
Defined.

(** C5 on a built sample whose native [play] rejects. *)
Lemma play_swallows_rejection_witness :
  video_ (built rejectingPlatform SECURE_URL SECURE_URL)
  = Some (builtVideo rejectingPlatform SECURE_URL)
  /\ play true (built rejectingPlatform SECURE_URL SECURE_URL)
     = (Ok tt,
        with_effects
          (effects (built rejectingPlatform SECURE_URL SECURE_URL)
             ++ [NativePlay])
          (built rejectingPlatform SECURE_URL SECURE_URL))
  /\ unhandledRejections
       (snd (play true (built rejectingPlatform SECURE_URL SECURE_URL)))
     = [].
Proof.
  assert (Hv : video_ (built rejectingPlatform SECURE_URL SECURE_URL)
               = Some (builtVideo rejectingPlatform SECURE_URL)).
  { vm_compute. reflexivity. }
  split; [exact Hv|].
  apply (play_swallows_rejection _ _ "NotAllowedError" true Hv).
  reflexivity.
Defined.

(** Without the [catch] the rejection of the same promise would be reported. *)
Example rejection_without_catch_is_reported :
  unhandledRejections
    (snd (endOfTask (PlayPromise (Some "NotAllowedError")) false
            (built rejectingPlatform SECURE_URL SECURE_URL)))
  = [ "NotAllowedError" ].
Proof. vm_compute. reflexivity. Qed.

(** C8 on a built sample: a new secure [src], a new [loop], a viewport
    change. *)
Lemma reload_and_visibility_witness :
  video_ (built modernPlatform SECURE_URL SECURE_URL)
  = Some (builtVideo modernPlatform SECURE_URL)
  /\ effects
       (snd (mutatedAttributesCallback (H := sampleHost modernPlatform)
               (srcMutation SECURE_URL)
               (built modernPlatform SECURE_URL SECURE_URL)))
     = effects (built modernPlatform SECURE_URL SECURE_URL)
         ++ [DispatchCustomEvent RELOAD None]
  /\ effects
       (snd (mutatedAttributesCallback (H := sampleHost modernPlatform)
               loopMutation
               (built modernPlatform SECURE_URL SECURE_URL)))
     = effects (built modernPlatform SECURE_URL SECURE_URL)
  /\ viewportCallback false (built modernPlatform SECURE_URL SECURE_URL)
     = (Ok tt,
        with_effects
          (effects (built modernPlatform SECURE_URL SECURE_URL)
             ++ [DispatchCustomEvent VISIBILITY (Some false)])
          (built modernPlatform SECURE_URL SECURE_URL)).
Proof.
  assert (Hv : video_ (built modernPlatform SECURE_URL SECURE_URL)
               = Some (builtVideo modernPlatform SECURE_URL)).
  { vm_compute. reflexivity. }
  destruct (reload_and_visibility (H := sampleHost modernPlatform)
              (built modernPlatform SECURE_URL SECURE_URL))
    as [Hreload Hvisible].
  split; [exact Hv|]. split; [|split].
  - rewrite (Hreload _ (srcMutation SECURE_URL) Hv). reflexivity.
  - rewrite (Hreload _ loopMutation Hv). reflexivity.
  - apply Hvisible.
Defined.

(** C1 on built samples with an http [src] on the element and on a
    [source] child. *)
Lemma insecure_source_fails_witness :
  preconnectCallback (H := sampleHost modernPlatform) None
    (built modernPlatform INSECURE_URL SECURE_URL)
  = (Throw (UserAssertion (Some INSECURE_URL)),
     built modernPlatform INSECURE_URL SECURE_URL)
  /\ layoutCallback (H := sampleHost modernPlatform)
       (built modernPlatform INSECURE_URL SECURE_URL)
     = (Throw (UserAssertion (Some INSECURE_URL)),
        built modernPlatform INSECURE_URL SECURE_URL)
  /\ (exists refused st',
        layoutCallback (H := sampleHost modernPlatform)
          (built modernPlatform SECURE_URL INSECURE_URL)
        = (Throw (UserAssertion refused), st')
        /\ passesHttpsAssert (Host := sampleHost modernPlatform) refused
           = false
        /\ effects st' = effects (built modernPlatform SECURE_URL INSECURE_URL))
  /\ mutatedAttributesCallback (H := sampleHost modernPlatform)
       (srcMutation INSECURE_URL)
       (built modernPlatform INSECURE_URL SECURE_URL)
     = (Throw (UserAssertion (Some INSECURE_URL)),
        built modernPlatform INSECURE_URL SECURE_URL).
Proof.
  destruct (insecure_source_fails (H := sampleHost modernPlatform)
              (built modernPlatform INSECURE_URL SECURE_URL))
    as (Hpreconnect & Hlayout & Hmutated).
  destruct (insecure_source_fails (H := sampleHost modernPlatform)
              (built modernPlatform SECURE_URL INSECURE_URL))
    as (_ & Hchild & _).
  split; [|split; [|split]].
  - apply Hpreconnect; [vm_compute; reflexivity|discriminate|reflexivity].
  - apply (Hlayout (builtVideo modernPlatform INSECURE_URL)
             (PlayPromise None));
      [vm_compute; reflexivity|reflexivity|vm_compute; reflexivity
      |discriminate|reflexivity].
  - apply (proj2 (Hchild (builtVideo modernPlatform SECURE_URL)
                    (PlayPromise None) ltac:(vm_compute; reflexivity)
                    eq_refl)
             (ElementNode "source" (<["src" := INSECURE_URL]> ∅) [])
             INSECURE_URL);
      [|reflexivity|vm_compute; reflexivity|discriminate|reflexivity].
    vm_compute. apply list_elem_of_further, list_elem_of_here.
  - apply (Hmutated (builtVideo modernPlatform INSECURE_URL));
      [vm_compute; reflexivity|reflexivity|reflexivity].
Defined.

(** C3 on a sample: the record after the build, and after the album
    changed. *)
Lemma metadata_follows_attributes_witness :
  (exists st',
     buildCallback (H := sampleHost modernPlatform)
       (unbuilt modernPlatform SECURE_URL SECURE_URL) = (Ok tt, st')
     /\ fst (getMetadata st') =
          Ok {| md_title := "";
                md_artist := "";
                md_album := "Greatest Hits";
                md_artwork :=
                  [ {| art_src := "https://example.com/poster.png" |} ] |})
  /\ fst (getMetadata
            (snd (mutatedAttributesCallback (H := sampleHost modernPlatform)
                    (albumMutation "Live")
                    (elementSetAttribute "album" "Live"
                       (built modernPlatform SECURE_URL SECURE_URL)))))
     = Ok {| md_title := "";
             md_artist := "";
             md_album := "Live";
             md_artwork :=
               [ {| art_src := "https://example.com/poster.png" |} ] |}.
Proof.
  split.
  - destruct (metadata_follows_attributes (H := sampleHost modernPlatform)
                (unbuilt modernPlatform SECURE_URL SECURE_URL))
      as [(st' & Hrun & _ & Hmeta) _].
    exists st'. split; [exact Hrun|]. rewrite Hmeta. vm_compute. reflexivity.
  - destruct (metadata_follows_attributes (H := sampleHost modernPlatform)
                (elementSetAttribute "album" "Live"
                   (built modernPlatform SECURE_URL SECURE_URL)))
      as [_ Hmutated].
    destruct (Hmutated (builtVideo modernPlatform SECURE_URL)
                (albumMutation "Live")
                ltac:(vm_compute; reflexivity))
      as [_ Hmeta].
    destruct (Hmeta
                (snd (mutatedAttributesCallback
                        (H := sampleHost modernPlatform)
                        (albumMutation "Live")
                        (elementSetAttribute "album" "Live"
                           (built modernPlatform SECURE_URL SECURE_URL))))
                ltac:(vm_compute; reflexivity))
      as [_ ->].
    vm_compute. reflexivity.
Defined.

(** C4 on a sample: after the build, after a layout, and after [controls]
    was removed. *)
Lemma propagation_follows_whitelist_witness :
  (exists v',
     video_ (snd (buildCallback (H := sampleHost modernPlatform)
                    (unbuilt modernPlatform SECURE_URL SECURE_URL)))
     = Some v'
     /\ v_attributes v' !! "poster" = Some "https://example.com/poster.png"
     /\ v_attributes v' !! "src" = None
     /\ v_attributes v' !! "class" = Some "fill replaced")
  /\ (exists v',
        video_ (snd (layoutCallback (H := sampleHost modernPlatform)
                       (built modernPlatform SECURE_URL SECURE_URL)))
        = Some v'
        /\ v_attributes v' !! "src" = Some SECURE_URL
        /\ v_attributes v' !! "poster"
           = Some "https://example.com/poster.png")
  /\ (exists v',
        video_ (snd (layoutCallback (H := sampleHost legacyPlatform)
                       (built legacyPlatform SECURE_URL SECURE_URL)))
        = Some v'
        /\ v_attributes v'
           = v_attributes (builtVideo legacyPlatform SECURE_URL))
  /\ (exists v',
        video_ (snd (mutatedAttributesCallback
                       (H := sampleHost modernPlatform) controlsRemoved
                       (elementRemoveAttribute "controls"
                          (built modernPlatform SECURE_URL SECURE_URL))))
        = Some v'
        /\ v_attributes v' !! "controls" = None
        /\ v_attributes v' !! "poster"
           = Some "https://example.com/poster.png").
Proof.
  split; [|split; [|split]].
  - destruct (propagation_follows_whitelist (H := sampleHost modernPlatform)
                (unbuilt modernPlatform SECURE_URL SECURE_URL))
      as (_ & _ & _ & (v' & Hv' & Hlisted & Hother & Hclass) & _).
    exists v'. split; [exact Hv'|]. split; [|split].
    + rewrite Hlisted; [reflexivity|].
      vm_compute. do 5 apply list_elem_of_further. apply list_elem_of_here.
    + rewrite Hother; [reflexivity| |discriminate].
      unfold ATTRS_TO_PROPAGATE_ON_BUILD. rewrite !not_elem_of_cons.
      repeat (split; [discriminate|]). apply not_elem_of_nil.
    + rewrite Hclass. reflexivity.
  - destruct (propagation_follows_whitelist (H := sampleHost modernPlatform)
                (built modernPlatform SECURE_URL SECURE_URL))
      as (_ & _ & _ & _ & Hlayout & _).
    destruct (Hlayout (builtVideo modernPlatform SECURE_URL))
      as (v' & Hv' & Hother & Hlisted & _); [vm_compute; reflexivity|].
    exists v'. split; [exact Hv'|]. split.
    + rewrite (Hlisted (PlayPromise None));
        [reflexivity|reflexivity|reflexivity|].
      apply list_elem_of_here.
    + rewrite Hother; [vm_compute; reflexivity|].
      unfold ATTRS_TO_PROPAGATE_ON_LAYOUT. rewrite !not_elem_of_cons.
      repeat (split; [discriminate|]). apply not_elem_of_nil.
  - destruct (propagation_follows_whitelist (H := sampleHost legacyPlatform)
                (built legacyPlatform SECURE_URL SECURE_URL))
      as (_ & _ & _ & _ & Hlayout & _).
    destruct (Hlayout (builtVideo legacyPlatform SECURE_URL))
      as (v' & Hv' & _ & _ & Hnothing); [vm_compute; reflexivity|].
    exists v'. split; [exact Hv'|]. apply Hnothing. left. reflexivity.
  - destruct (propagation_follows_whitelist (H := sampleHost modernPlatform)
                (elementRemoveAttribute "controls"
                   (built modernPlatform SECURE_URL SECURE_URL)))
      as (_ & _ & _ & _ & _ & Hmutated).
    destruct (Hmutated (builtVideo modernPlatform SECURE_URL) controlsRemoved)
      as (v' & Hv' & Hother & Hlisted & _); [vm_compute; reflexivity|].
    exists v'. split; [exact Hv'|]. split.
    + rewrite Hlisted; [reflexivity|reflexivity| |reflexivity].
      vm_compute. do 3 apply list_elem_of_further. apply list_elem_of_here.
    + rewrite Hother; [vm_compute; reflexivity|]. right. reflexivity.
Defined.

(** C9 on a sample that carries [autoplay]. *)
Lemma autoplay_is_never_propagated_witness :
  element_attributes (unbuilt modernPlatform SECURE_URL SECURE_URL)
    !! "autoplay" = Some ""
  /\ (exists v',
        video_ (snd (buildCallback (H := sampleHost modernPlatform)
                       (unbuilt modernPlatform SECURE_URL SECURE_URL)))
        = Some v'
        /\ v_attributes v' !! "autoplay" = None)
  /\ (exists v',
        video_ (snd (layoutCallback (H := sampleHost modernPlatform)
                       (built modernPlatform SECURE_URL SECURE_URL)))
        = Some v'
        /\ v_attributes v' !! "autoplay" = None)
  /\ (exists v',
        video_ (snd (mutatedAttributesCallback
                       (H := sampleHost modernPlatform) autoplayMutation
                       (built modernPlatform SECURE_URL SECURE_URL)))
        = Some v'
        /\ v_attributes v' !! "autoplay" = None).
Proof.
  split; [reflexivity|].
  destruct (autoplay_is_never_propagated (H := sampleHost modernPlatform)
              (unbuilt modernPlatform SECURE_URL SECURE_URL))
    as (_ & _ & Hbuild & _).
  destruct (autoplay_is_never_propagated (H := sampleHost modernPlatform)
              (built modernPlatform SECURE_URL SECURE_URL))
    as (_ & _ & _ & Hlayout & Hmutated).
  split; [exact Hbuild|]. split.
  - destruct (Hlayout (builtVideo modernPlatform SECURE_URL))
      as (v' & Hv' & Hsame); [vm_compute; reflexivity|].
    exists v'. split; [exact Hv'|]. rewrite Hsame. reflexivity.
  - destruct (Hmutated (builtVideo modernPlatform SECURE_URL)
                autoplayMutation)
      as (v' & Hv' & Hsame); [vm_compute; reflexivity|].
    exists v'. split; [exact Hv'|]. rewrite Hsame. reflexivity.
Defined.

(** C6 on a built sample with secure sources. *)
Lemma load_is_announced_after_ready_witness :
  video_ (built modernPlatform SECURE_URL SECURE_URL)
  = Some (builtVideo modernPlatform SECURE_URL)
  /\ effects (snd (layoutCallback (H := sampleHost modernPlatform)
                     (built modernPlatform SECURE_URL SECURE_URL)))
     = effects (built modernPlatform SECURE_URL SECURE_URL)
  /\ fst (layoutCallback (H := sampleHost modernPlatform)
            (built modernPlatform SECURE_URL SECURE_URL))
     = Ok LAYOUT_PROMISE
  /\ fst (settle NotYet LAYOUT_PROMISE
            (snd (layoutCallback (H := sampleHost modernPlatform)
                    (built modernPlatform SECURE_URL SECURE_URL))))
     = Pending
  /\ settle LoadStarted LAYOUT_PROMISE
       (snd (layoutCallback (H := sampleHost modernPlatform)
               (built modernPlatform SECURE_URL SECURE_URL)))
     = (Fulfilled,
        with_effects
          (effects (snd (layoutCallback (H := sampleHost modernPlatform)
                           (built modernPlatform SECURE_URL SECURE_URL)))
             ++ [DispatchCustomEvent LOAD None])
          (snd (layoutCallback (H := sampleHost modernPlatform)
                  (built modernPlatform SECURE_URL SECURE_URL)))).
Proof.
  assert (Hv : video_ (built modernPlatform SECURE_URL SECURE_URL)
               = Some (builtVideo modernPlatform SECURE_URL)).
  { vm_compute. reflexivity. }
  destruct (load_is_announced_after_ready (H := sampleHost modernPlatform)
              _ _ (PlayPromise None) Hv eq_refl)
    as (Hquiet & Hreturns & Hsettles).
  assert (Hok : fst (layoutCallback (H := sampleHost modernPlatform)
                       (built modernPlatform SECURE_URL SECURE_URL))
                = Ok LAYOUT_PROMISE).
  { apply Hreturns; vm_compute; reflexivity. }
  split; [exact Hv|]. split; [exact Hquiet|]. split; [exact Hok|].
  destruct (Hsettles LAYOUT_PROMISE
              (snd (layoutCallback (H := sampleHost modernPlatform)
                      (built modernPlatform SECURE_URL SECURE_URL))))
    as (Hpending & Hfulfilled & _).
  { rewrite <- Hok. apply surjective_pairing. }
  split; [by rewrite Hpending|exact Hfulfilled].
Defined.

(** ** Where the claims as first stated fail *)

(** C1 as stated fails on two paths that never reach the assertion.  A
    built component whose native element has no [play] lays out without
    failure although the element's [src] is an http URL; and before the
    build, a mutation record with that URL under [src] is taken without
    failure. *)
Lemma insecure_src_without_failure :
  element_attributes (built legacyPlatform INSECURE_URL INSECURE_URL) !! "src"
  = Some INSECURE_URL
  /\ passesHttpsAssert (Host := sampleHost legacyPlatform) (Some INSECURE_URL)
     = false
  /\ layoutCallback (H := sampleHost legacyPlatform)
       (built legacyPlatform INSECURE_URL INSECURE_URL)
     = (Ok PromiseResolve,
        with_effects
          (effects (built legacyPlatform INSECURE_URL INSECURE_URL)
             ++ [ToggleFallback true])
          (built legacyPlatform INSECURE_URL INSECURE_URL))
  /\ element_attributes (unbuilt modernPlatform INSECURE_URL INSECURE_URL)
       !! "src"
     = Some INSECURE_URL
  /\ srcMutation INSECURE_URL !! "src" = Some (JsString INSECURE_URL)
  /\ mutatedAttributesCallback (H := sampleHost modernPlatform)
       (srcMutation INSECURE_URL)
       (unbuilt modernPlatform INSECURE_URL INSECURE_URL)
     = (Ok tt, unbuilt modernPlatform INSECURE_URL INSECURE_URL).
Proof. evaluate_each. Qed.

(** C3 as stated fails when an attribute is removed.  The document drops
    [album] from a built element and reports it with [null] in the mutation
    record: [album] is among the mutations and the rule gives the empty
    string, yet the record keeps the album of the build. *)
Lemma removed_album_is_not_rederived :
  albumRemoved !! "album" = Some JsNull
  /\ element_attributes
       (elementRemoveAttribute "album"
          (built modernPlatform SECURE_URL SECURE_URL)) !! "album"
     = None
  /\ attributeOrEmpty
       (element_attributes
          (elementRemoveAttribute "album"
             (built modernPlatform SECURE_URL SECURE_URL))) "album"
     = ""
  /\ fst (mutatedAttributesCallback (H := sampleHost modernPlatform)
            albumRemoved
            (elementRemoveAttribute "album"
               (built modernPlatform SECURE_URL SECURE_URL)))
     = Ok tt
  /\ fst (getMetadata
            (snd (mutatedAttributesCallback (H := sampleHost modernPlatform)
                    albumRemoved
                    (elementRemoveAttribute "album"
                       (built modernPlatform SECURE_URL SECURE_URL)))))
     = Ok {| md_title := "";
             md_artist := "";
             md_album := "Greatest Hits";
             md_artwork :=
               [ {| art_src := "https://example.com/poster.png" |} ] |}.
Proof. evaluate_each. Qed.

(** C4 as stated fails where a callback stops before it propagates.  A
    built component whose native element has no [play] lays out and returns,
    yet the element's [src], which is on the layout-time list, has not
    reached the native element.  And when the document gives a built element
    an http [src] together with [loop], both reported in the mutation record,
    the callback throws on the [src]: [loop] is on the list and among the
    mutations, yet the native element has no [loop]. *)
Lemma listed_attribute_not_propagated :
  bool_decide ("src" ∈ ATTRS_TO_PROPAGATE_ON_LAYOUT) = true
  /\ element_attributes (built legacyPlatform SECURE_URL SECURE_URL) !! "src"
     = Some SECURE_URL
  /\ fst (layoutCallback (H := sampleHost legacyPlatform)
            (built legacyPlatform SECURE_URL SECURE_URL))
     = Ok PromiseResolve
  /\ video_ (snd (layoutCallback (H := sampleHost legacyPlatform)
                    (built legacyPlatform SECURE_URL SECURE_URL)))
     = Some (builtVideo legacyPlatform SECURE_URL)
  /\ v_attributes (builtVideo legacyPlatform SECURE_URL) !! "src" = None
  /\ bool_decide ("loop" ∈ ATTRS_TO_PROPAGATE) = true
  /\ srcAndLoopMutation INSECURE_URL !! "loop" = Some (JsString "")
  /\ element_attributes
       (elementSetAttribute "loop" ""
          (elementSetAttribute "src" INSECURE_URL
             (built modernPlatform SECURE_URL SECURE_URL))) !! "loop"
     = Some ""
  /\ fst (mutatedAttributesCallback (H := sampleHost modernPlatform)
            (srcAndLoopMutation INSECURE_URL)
            (elementSetAttribute "loop" ""
               (elementSetAttribute "src" INSECURE_URL
                  (built modernPlatform SECURE_URL SECURE_URL))))
     = Throw (UserAssertion (Some INSECURE_URL))
  /\ video_ (snd (mutatedAttributesCallback (H := sampleHost modernPlatform)
                    (srcAndLoopMutation INSECURE_URL)
                    (elementSetAttribute "loop" ""
                       (elementSetAttribute "src" INSECURE_URL
                          (built modernPlatform SECURE_URL SECURE_URL)))))
     = Some (builtVideo modernPlatform SECURE_URL)
  /\ v_attributes (builtVideo modernPlatform SECURE_URL) !! "loop" = None.
Proof. evaluate_each. Qed.

(** C8 as stated fails in two ways.  When the document removes [src] and
    reports it with [null], [src] is among the mutations and the callback
    returns, yet no RELOAD is dispatched; and when the new [src] is an http
    URL the callback throws before it dispatches anything. *)
Lemma src_mutation_without_reload :
  srcRemoved !! "src" = Some JsNull
  /\ effects (built modernPlatform SECURE_URL SECURE_URL)
     = [ ApplyFillContent true; RegisterVideo ]
  /\ fst (mutatedAttributesCallback (H := sampleHost modernPlatform)
            srcRemoved
            (elementRemoveAttribute "src"
               (built modernPlatform SECURE_URL SECURE_URL)))
     = Ok tt
  /\ effects
       (snd (mutatedAttributesCallback (H := sampleHost modernPlatform)
               srcRemoved
               (elementRemoveAttribute "src"
                  (built modernPlatform SECURE_URL SECURE_URL))))
     = [ ApplyFillContent true; RegisterVideo ]
  /\ srcMutation INSECURE_URL !! "src" = Some (JsString INSECURE_URL)
  /\ mutatedAttributesCallback (H := sampleHost modernPlatform)
       (srcMutation INSECURE_URL)
       (elementSetAttribute "src" INSECURE_URL
          (built modernPlatform SECURE_URL SECURE_URL))
     = (Throw (UserAssertion (Some INSECURE_URL)),
        elementSetAttribute "src" INSECURE_URL
          (built modernPlatform SECURE_URL SECURE_URL))
  /\ effects
       (elementSetAttribute "src" INSECURE_URL
          (built modernPlatform SECURE_URL SECURE_URL))
     = [ ApplyFillContent true; RegisterVideo ].
Proof. evaluate_each. Qed.

(** * Further properties *)

(** ** Played ranges *)

Lemma pushPlayedRanges_seq {Time : Type} (played : TimeRanges Time)
  (remaining : nat) :
  forall (i : nat) (ranges : list (Time * Time)),
    pushPlayedRanges played i remaining ranges =
      ranges
        ++ ((fun k => (tr_start played k, tr_end played k)) <$> seq i remaining).
Proof.
  induction remaining as [|remaining IH]; intros i ranges;
    cbn [pushPlayedRanges seq fmap list_fmap].
  - by rewrite app_nil_r.
  - rewrite IH. by rewrite <- app_assoc.
Qed.

(** X1.  Before the build [getPlayedRanges] fails with a [TypeError].  On a
    built component it returns, without changing the component, an array
    with one pair per played range, in order: as many pairs as [length]
    says, the pair at index [i] being [start(i)] and [end(i)], and none
    beyond.  The accessors are read at indices below [length] only: two
    objects that agree on [length] and below it give the same array. *)
Theorem played_ranges_are_copied {Time : Type} (played : TimeRanges Time)
  (st : AmpVideo) :
  (video_ st = None -> getPlayedRanges played st = (Throw TypeError, st))
  /\ (forall v : VideoElement,
        video_ st = Some v ->
        exists ranges,
          getPlayedRanges played st = (Ok ranges, st)
          /\ length ranges = tr_length played
          /\ (forall i : nat,
                i < tr_length played ->
                ranges !! i = Some (tr_start played i, tr_end played i))
          /\ (forall i : nat, tr_length played <= i -> ranges !! i = None)
          /\ (forall other : TimeRanges Time,
                tr_length other = tr_length played ->
                (forall i : nat,
                   i < tr_length played ->
                   tr_start other i = tr_start played i
                   /\ tr_end other i = tr_end played i) ->
                getPlayedRanges other st = (Ok ranges, st))).
Proof.
  split.
  - intros Hv. unfold getPlayedRanges, bind, theVideo. by rewrite Hv.
  - intros v Hv.
    assert (Hrun : forall p : TimeRanges Time,
               getPlayedRanges p st =
                 (Ok ((fun k => (tr_start p k, tr_end p k))
                        <$> seq 0 (tr_length p)), st)).
    { intros p. unfold getPlayedRanges, bind, theVideo, ret. rewrite Hv.
      by rewrite pushPlayedRanges_seq. }
    eexists. split; [apply Hrun|]. split; [|split; [|split]].
    + by rewrite length_fmap, length_seq.
    + intros i Hi. rewrite list_lookup_fmap.
      by rewrite lookup_seq_lt.
    + intros i Hi. apply lookup_ge_None.
      by rewrite length_fmap, length_seq.
    + intros other Hlength Hagree. rewrite Hrun, Hlength. do 2 f_equal.
      apply list_fmap_ext. intros k i [-> Hk]%lookup_seq.
      cbn [Nat.add]. destruct (Hagree k Hk) as [-> ->]. reflexivity.
Qed.

(** ** Muting *)

Lemma videoFires_volumechange (st : AmpVideo) (v : VideoElement) :
  video_ st = Some v ->
  v_listeners v = BUILD_LISTENERS ->
  videoFires Volumechange st = (Ok tt, snd (volumechangeListener st)).
Proof.
  intros Hv Hl. unfold videoFires, theVideo. unfold bind at 1.
  rewrite Hv, Hl. unfold BUILD_LISTENERS.
  cbn [runListeners runListener].
  repeat (case_decide; [discriminate|]).
  case_decide; [|done].
  repeat (case_decide; [discriminate|]).
  unfold bind, ret. by destruct (volumechangeListener st).
Qed.

Lemma setMuted_run (muted : bool) (st : AmpVideo) (v : VideoElement) :
  video_ st = Some v ->
  v_listeners v = BUILD_LISTENERS ->
  exists st',
    setMuted muted st = (Ok tt, st')
    /\ video_ st' = Some (v_with_muted muted v)
    /\ muted_ st' = muted
    /\ effects st' =
         effects st
           ++ (if Bool.eqb (muted_ st) muted then [] else [mutedEvent muted]).
Proof.
  intros Hv Hl.
  set (st1 := with_video (Some (v_with_muted muted v)) st).
  assert (Hwrite : (if muted then mute else unmute) st = (Ok tt, st1)).
  { destruct st as [attrs kids vid mu md eff unh]. simpl in Hv. subst vid.
    by destruct muted. }
  unfold setMuted. unfold bind at 1. rewrite Hwrite.
  rewrite (videoFires_volumechange st1 (v_with_muted muted v) eq_refl Hl).
  rewrite (volumechange_run st1 (v_with_muted muted v) eq_refl).
  cbn [v_with_muted v_muted].
  replace (muted_ st1) with (muted_ st) by reflexivity.
  destruct (Bool.eqb (muted_ st) muted) eqn:Heq; eexists;
    (split; [reflexivity|]); cbn [snd].
  - apply Bool.eqb_prop in Heq. repeat split; [done|by rewrite app_nil_r].
  - repeat split.
Qed.

Lemma last_cons_default {A : Type} (x d : A) (l : list A) :
  List.last (x :: l) d = List.last l x.
Proof.
  revert x d. induction l as [|y l IH]; intros x d; [reflexivity|].
  change (List.last (x :: y :: l) d) with (List.last (y :: l) d).
  by rewrite (IH y d), (IH y x).
Qed.

(** X2.  On a built component, a run of [mute()] and [unmute()] calls, each
    answered by the native [volumechange], dispatches exactly one event per
    write that changes the value, MUTED or UNMUTED after the value written,
    in order, and nothing for a write that repeats the value; afterwards
    [muted_] and the native flag both hold the last value written. *)
Theorem mute_events_follow_changes (writes : list bool) :
  forall (st : AmpVideo) (v : VideoElement),
    video_ st = Some v ->
    v_listeners v = BUILD_LISTENERS ->
    exists st' v',
      setMutedEach writes st = (Ok tt, st')
      /\ effects st' = effects st ++ (mutedEvent <$> changes (muted_ st) writes)
      /\ muted_ st' = List.last writes (muted_ st)
      /\ video_ st' = Some v'
      /\ v_muted v' = List.last writes (v_muted v).
Proof.
  induction writes as [|muted rest IH]; intros st v Hv Hl.
  - exists st, v. cbn. by rewrite app_nil_r.
  - destruct (setMuted_run muted st v Hv Hl)
      as (st1 & Hrun & Hv1 & Hmuted1 & Heff1).
    destruct (IH st1 (v_with_muted muted v) Hv1 Hl)
      as (st' & v' & Hrest & Heff & Hmuted & Hv' & Hflag).
    exists st', v'. cbn [setMutedEach]. unfold bind at 1. rewrite Hrun.
    split; [exact Hrest|]. rewrite !last_cons_default.
    rewrite Hmuted1 in Heff, Hmuted. cbn [v_with_muted v_muted] in Hflag.
    repeat split; try assumption.
    rewrite Heff, Heff1. cbn [changes].
    destruct (Bool.eqb (muted_ st) muted).
    + by rewrite app_nil_r.
    + by rewrite <- app_assoc.
Qed.

Section Further.
Context `{Host}.

(** ** Playback support *)

(** X3.  [play] returns exactly when [supportsPlatform] answers true;
    otherwise it fails with a [TypeError] and changes nothing.  When it
    returns, whatever the native call handed back, the only change is the
    record of the native call: no rejection is left unhandled.
    [supportsPlatform] answers false exactly when a layout takes the
    fallback path, and itself fails with a [TypeError] exactly before the
    build. *)
Theorem play_needs_platform_support (st : AmpVideo)
  (unusedIsAutoplay : bool) :
  (fst (play unusedIsAutoplay st) = Ok tt
   <-> fst (supportsPlatform st) = Ok true)
  /\ (fst (supportsPlatform st) = Ok false
      <-> fst (layoutCallback st) = Ok PromiseResolve)
  /\ (fst (supportsPlatform st) = Throw TypeError <-> video_ st = None)
  /\ (fst (play unusedIsAutoplay st) = Ok tt ->
      snd (play unusedIsAutoplay st)
      = with_effects (effects st ++ [NativePlay]) st)
  /\ (fst (play unusedIsAutoplay st) <> Ok tt ->
      play unusedIsAutoplay st = (Throw TypeError, st)).
Proof.
  destruct (video_ st) as [v|] eqn:Hv.
  - destruct (v_play v) as [native|] eqn:Hplay.
    + assert (Hrun : play unusedIsAutoplay st
                     = (Ok tt, with_effects (effects st ++ [NativePlay]) st)).
      { destruct st as [attrs kids vid mu md eff unh]. simpl in Hv.
        subst vid. destruct v as [va vk vl vm vc vp]. simpl in Hplay.
        subst vp. by destruct native as [|[reason|]]. }
      assert (Hsup : supportsPlatform st = (Ok true, st)).
      { unfold supportsPlatform, isVideoSupported_, bind, theVideo, ret.
        by rewrite Hv, Hplay. }
      rewrite Hrun, Hsup, (layout_supported_run st v native Hv Hplay).
      cbn [fst snd]. repeat split; try done.
      destruct (truthyAttr (element_attributes st !! "src")
                && negb (passesHttpsAssert (element_attributes st !! "src")));
        [done|].
      by destruct (forEachRealChild _ _ _) as [[[]|e] st'].
    + assert (Hrun : play unusedIsAutoplay st = (Throw TypeError, st)).
      { unfold play, bind, theVideo, throw. by rewrite Hv, Hplay. }
      assert (Hsup : supportsPlatform st = (Ok false, st)).
      { unfold supportsPlatform, isVideoSupported_, bind, theVideo, ret.
        by rewrite Hv, Hplay. }
      rewrite Hrun, Hsup, (layout_unsupported_run st v Hv Hplay).
      cbn [fst snd]. repeat split; done.
  - assert (Hrun : play unusedIsAutoplay st = (Throw TypeError, st)).
    { unfold play, bind, theVideo. by rewrite Hv. }
    assert (Hsup : supportsPlatform st = (Throw TypeError, st)).
    { unfold supportsPlatform, isVideoSupported_, bind, theVideo.
      by rewrite Hv. }
    rewrite Hrun, Hsup, (layout_unbuilt st Hv).
    cbn [fst snd]. repeat split; done.
Qed.

(** ** Preconnect *)

(** X4.  [preconnectCallback] resolves the source without changing the
    component: to the element's [src] when that is not empty, and to that
    attribute as it is when the element has no child.  Then one of three
    things happens.  A source that is [null] or empty: nothing, and no
    failure.  A source the https assertion accepts: one preconnect to it,
    with the flag given, and nothing else.  A source the assertion refuses:
    the failure, and nothing else.  So no preconnect is ever issued to an
    empty or refused source. *)
Theorem preconnect_only_to_accepted_source (st : AmpVideo)
  (opt_onLayout : option bool) :
  exists videoSrc : option string,
    getVideoSource_ st = (Ok videoSrc, st)
    /\ (truthyAttr (element_attributes st !! "src") = true ->
        videoSrc = element_attributes st !! "src")
    /\ (element_childNodes st = [] ->
        videoSrc = element_attributes st !! "src")
    /\ ((truthyAttr videoSrc = false
         /\ preconnectCallback opt_onLayout st = (Ok tt, st))
        \/ (exists url : string,
              videoSrc = Some url /\ url <> ""
              /\ passesHttpsAssert (Some url) = true
              /\ preconnectCallback opt_onLayout st
                 = (Ok tt,
                    with_effects
                      (effects st ++ [PreconnectUrl url opt_onLayout]) st))
        \/ (truthyAttr videoSrc = true
            /\ passesHttpsAssert videoSrc = false
            /\ preconnectCallback opt_onLayout st
               = (Throw (UserAssertion videoSrc), st))).
Proof.
  destruct (getVideoSource_pure st) as [videoSrc Hsrc].
  exists videoSrc. split; [exact Hsrc|].
  assert (Hown : truthyAttr (element_attributes st !! "src") = true
                 \/ element_childNodes st = [] ->
                 videoSrc = element_attributes st !! "src").
  { intros Hcase. revert Hsrc.
    destruct st as [attrs kids vid mu md eff unh].
    unfold getVideoSource_, elementByTag. run_primitives.
    cbn [element_attributes element_childNodes] in Hcase.
    destruct Hcase as [-> | ->]; cbn [negb firstByTagInChildren].
    - by intros [= <-].
    - destruct (negb _); by intros [= <-]. }
  split; [by intros; apply Hown; left|].
  split; [by intros; apply Hown; right|].
  rewrite (preconnect_run st videoSrc opt_onLayout Hsrc).
  destruct (truthyAttr videoSrc) eqn:Htruthy; [|by left].
  right. destruct (passesHttpsAssert videoSrc) eqn:Hpass; [left|by right].
  destruct videoSrc as [[|c url]|]; try discriminate.
  exists (String c url). by repeat split.
Qed.

(** ** What reaches the native element *)

Lemma src_is_listed : "src" ∈ ATTRS_TO_PROPAGATE.
Proof.
  unfold ATTRS_TO_PROPAGATE. apply elem_of_app. right.
  apply list_elem_of_here.
Qed.

(** X5.  A non-empty [src] that the https assertion refuses never reaches
    the native element.  After [layoutCallback], however it ends, the
    native [src] is what it was, or it is the element's [src] and that one is
    empty, absent or accepted.  The same holds after
    [mutatedAttributesCallback] when the mutation record holds a truthy
    value under [src] or none at all. *)
Theorem refused_src_never_reaches_video (st : AmpVideo) (v : VideoElement) :
  video_ st = Some v ->
  (exists v',
     video_ (snd (layoutCallback st)) = Some v'
     /\ (v_attributes v' !! "src" = v_attributes v !! "src"
         \/ (v_attributes v' !! "src" = element_attributes st !! "src"
             /\ (truthyAttr (element_attributes st !! "src") = true ->
                 passesHttpsAssert (element_attributes st !! "src") = true))))
  /\ (forall mutations : gmap string JsValue,
        (isDefined (mutations !! "src") = true ->
         truthy (mutations !! "src") = true) ->
        exists v',
          video_ (snd (mutatedAttributesCallback mutations st)) = Some v'
          /\ (v_attributes v' !! "src" = v_attributes v !! "src"
              \/ (v_attributes v' !! "src" = element_attributes st !! "src"
                  /\ (truthyAttr (element_attributes st !! "src") = true ->
                      passesHttpsAssert (element_attributes st !! "src")
                      = true)))).
Proof.
  intros Hv. split.
  - destruct (v_play v) as [native|] eqn:Hplay.
    + rewrite (layout_supported_run st v native Hv Hplay).
      destruct (truthyAttr (element_attributes st !! "src")) eqn:Htruthy,
        (passesHttpsAssert (element_attributes st !! "src")) eqn:Hpass;
        cbn [andb negb]; try (exists v; split; [done|by left]).
      all: set (st1 := with_video _ st);
        pose proof (forEachRealChild_frame (element_childNodes st) [] st1
                      _ eq_refl)
          as (_ & _ & _ & _ & _ & w & v' & Hw & Hv' & Hattrs & _);
        injection Hw as <-;
        change (v_attributes v' =
                  propagate (element_attributes st)
                    ATTRS_TO_PROPAGATE_ON_LAYOUT true (v_attributes v))
          in Hattrs;
        exists v';
        (split;
         [by destruct (forEachRealChild [] (element_childNodes st) st1)
            as [[[]|e] st']|]);
        right; rewrite Hattrs;
        (split; [apply propagate_lookup_listed, list_elem_of_here|done]).
    + rewrite (layout_unsupported_run st v Hv Hplay).
      exists v. split; [done|by left].
  - intros mutations Hsrc. rewrite (mutated_built st v mutations Hv).
    destruct (truthy (mutations !! "src")) eqn:Htruthy,
      (passesHttpsAssert (element_attributes st !! "src")) eqn:Hpass;
      cbn [andb negb]; try (exists v; split; [done|by left]).
    all: eexists; (split; [reflexivity|]);
      cbn [v_with_attributes v_attributes].
    + right. split; [|done]. apply propagate_lookup_listed.
      apply elem_of_filter_defined. split; [apply src_is_listed|].
      by destruct (mutations !! "src").
    + left. apply propagate_lookup_other.
      rewrite elem_of_filter_defined. intros [_ Hdefined].
      by specialize (Hsrc Hdefined).
    + left. apply propagate_lookup_other.
      rewrite elem_of_filter_defined. intros [_ Hdefined].
      by specialize (Hsrc Hdefined).
Qed.

Lemma propagate_idempotent (from : gmap string string)
  (attributes : list string) (target : gmap string string) :
  propagate from attributes true (propagate from attributes true target)
  = propagate from attributes true target.
Proof.
  apply map_eq. intros a. destruct (decide (a ∈ attributes)) as [Hin|Hout].
  - by rewrite !propagate_lookup_listed.
  - by rewrite propagate_lookup_other.
Qed.

Lemma updatedMetadata_idempotent (attrs : gmap string string)
  (mutations : gmap string JsValue) (md : MetadataDef) :
  updatedMetadata attrs mutations (updatedMetadata attrs mutations md)
  = updatedMetadata attrs mutations md.
Proof.
  unfold updatedMetadata. cbn [md_title md_artist md_album md_artwork].
  by destruct (truthy (mutations !! "title")),
    (truthy (mutations !! "artist")), (truthy (mutations !! "album")),
    (truthy (mutations !! "artwork") || truthy (mutations !! "poster")).
Qed.

(** X6.  After a build and a layout that reaches propagation (the platform
    can play and the element's [src] is not refused), the native element
    carries every attribute of the two lists exactly as the custom element
    has it, absent where the custom element lacks it, the two inline-play
    attributes with an empty value, the class that [applyFillContent] gave
    it, and nothing else.  So the [preload] of [none] that the build sets
    does not outlive the layout: the native [preload] is then the element's
    own, or absent. *)
Theorem attributes_after_build_and_layout (st : AmpVideo)
  (native : PlayReturn) :
  platformPlay = Some native ->
  truthyAttr (element_attributes st !! "src")
    && negb (passesHttpsAssert (element_attributes st !! "src")) = false ->
  exists v',
    video_ (snd (layoutCallback (snd (buildCallback st)))) = Some v'
    /\ (forall a : string,
          v_attributes v' !! a =
            if bool_decide (a ∈ ATTRS_TO_PROPAGATE)
            then element_attributes st !! a
            else if bool_decide (a ∈ INLINE_ATTRIBUTES) then Some ""
                 else if bool_decide (a = "class")
                      then Some (fillContentClass None true)
                      else None)
    /\ v_attributes v' !! "preload" = element_attributes st !! "preload".
Proof.
  intros Hplatform Hsrc. rewrite build_result. cbn [snd].
  set (st1 := mkAmpVideo _ _ _ _ _ _ _).
  destruct (layout_attributes st1 _ eq_refl) as (v' & Hv' & _ & Hdone).
  specialize (Hdone native Hplatform Hsrc).
  change (v_attributes v' =
            propagate (element_attributes st) ATTRS_TO_PROPAGATE_ON_LAYOUT
              true (builtAttributes (element_attributes st))) in Hdone.
  exists v'. split; [exact Hv'|].
  assert (Hall : forall a : string,
            v_attributes v' !! a =
              if bool_decide (a ∈ ATTRS_TO_PROPAGATE)
              then element_attributes st !! a
              else if bool_decide (a ∈ INLINE_ATTRIBUTES) then Some ""
                   else if bool_decide (a = "class")
                        then Some (fillContentClass None true)
                        else None).
  { intros a. rewrite Hdone. unfold ATTRS_TO_PROPAGATE.
    destruct (decide (a ∈ ATTRS_TO_PROPAGATE_ON_LAYOUT)) as [Hl|Hl].
    { rewrite propagate_lookup_listed by exact Hl.
      rewrite bool_decide_eq_true_2; [done|]. apply elem_of_app. by right. }
    rewrite propagate_lookup_other by exact Hl.
    unfold builtAttributes.
    destruct (decide (a ∈ ATTRS_TO_PROPAGATE_ON_BUILD)) as [Hb|Hb].
    { rewrite bool_decide_eq_true_2 by (apply elem_of_app; by left).
      rewrite lookup_insert_ne.
      - by rewrite propagate_lookup_listed.
      - intros <-. revert Hb. unfold ATTRS_TO_PROPAGATE_ON_BUILD.
        rewrite !elem_of_cons, elem_of_nil. intros Hb.
        repeat (destruct Hb as [Hb|Hb]; [discriminate|]). exact Hb. }
    rewrite bool_decide_eq_false_2 by (rewrite elem_of_app; tauto).
    unfold INLINE_ATTRIBUTES.
    destruct (decide (a = "class")) as [->|Hclass].
    { rewrite lookup_insert_eq.
      rewrite bool_decide_eq_false_2; [done|].
      rewrite !not_elem_of_cons.
      repeat split; [done..|apply not_elem_of_nil]. }
    rewrite lookup_insert_ne by done.
    rewrite propagate_lookup_other by exact Hb.
    rewrite (bool_decide_eq_false_2 (a = "class")) by done.
    unfold ATTRS_TO_PROPAGATE_ON_LAYOUT in Hl.
    rewrite !not_elem_of_cons in Hl. destruct Hl as (_ & _ & Hpreload & _).
    unfold BUILD_ATTRIBUTES.
    rewrite lookup_insert_ne by done.
    destruct (decide (a = "webkit-playsinline")) as [->|Hw].
    { by rewrite lookup_insert_eq. }
    rewrite lookup_insert_ne by done.
    destruct (decide (a = "playsinline")) as [->|Hp].
    { by rewrite lookup_insert_eq. }
    rewrite lookup_insert_ne by done.
    rewrite bool_decide_eq_false_2; [done|].
    rewrite !not_elem_of_cons. repeat split; [done..|apply not_elem_of_nil]. }
  split; [exact Hall|]. by rewrite Hall.
Qed.

(** X7.  On a built component, a mutation record handed over a second time
    changes nothing further: the native attributes and the metadata record
    stay as the first call left them, and the only effect of the second call
    is RELOAD once more when the record holds a truthy value under [src]. *)
Theorem repeated_mutation_changes_nothing (st st1 : AmpVideo)
  (v : VideoElement) (mutations : gmap string JsValue) :
  video_ st = Some v ->
  mutatedAttributesCallback mutations st = (Ok tt, st1) ->
  mutatedAttributesCallback mutations st1 =
    (Ok tt,
     with_effects
       (if truthy (mutations !! "src")
        then effects st1 ++ [DispatchCustomEvent RELOAD None]
        else effects st1)
       st1).
Proof.
  intros Hv Hrun. rewrite (mutated_built st v mutations Hv) in Hrun.
  remember (List.filter (fun value => isDefined (mutations !! value))
              ATTRS_TO_PROPAGATE) as attrs eqn:Hattrs.
  destruct (truthy (mutations !! "src")
            && negb (passesHttpsAssert (element_attributes st !! "src")))
    eqn:Hcheck; [discriminate|].
  injection Hrun as <-.
  match goal with
  | |- mutatedAttributesCallback _ ?s = _ =>
      rewrite (mutated_built s _ mutations eq_refl)
  end.
  rewrite <- Hattrs.
  unfold with_effects.
  cbn [element_attributes element_childNodes video_ muted_ metadata_ effects
       unhandledRejections v_with_attributes v_attributes v_childNodes
       v_listeners v_muted v_controls v_play].
  by rewrite Hcheck, propagate_idempotent, updatedMetadata_idempotent.
Qed.

(** X8.  The metadata record follows the attributes as long as every change
    is reported with a truthy value.  On a built component whose record is
    the one the rules give for the attributes as they were, if each
    attribute the record is made of is either unchanged or has a truthy
    entry in the mutation record, then after a [mutatedAttributesCallback]
    that returns the record is the one the rules give for the attributes as
    they are. *)
Theorem metadata_tracks_reported_changes (st st' : AmpVideo)
  (v : VideoElement) (before : gmap string string)
  (mutations : gmap string JsValue) :
  video_ st = Some v ->
  metadata_ st = derivedMetadata before ->
  (forall name : string,
     name ∈ METADATA_SOURCES ->
     before !! name = element_attributes st !! name
     \/ truthy (mutations !! name) = true) ->
  mutatedAttributesCallback mutations st = (Ok tt, st') ->
  metadata_ st' = derivedMetadata (element_attributes st').
Proof.
  intros Hv Hmd Hreported. rewrite (mutated_built st v mutations Hv).
  destruct (truthy (mutations !! "src")
            && negb (passesHttpsAssert (element_attributes st !! "src")));
    [discriminate|].
  intros [= <-]. cbn [metadata_ element_attributes]. rewrite Hmd.
  assert (Hsame : forall name : string,
            name ∈ METADATA_SOURCES ->
            truthy (mutations !! name) = false ->
            before !! name = element_attributes st !! name).
  { intros name Hin Hfalse. destruct (Hreported name Hin) as [?|Htrue];
      [done|congruence]. }
  assert (Hin : forall name : string,
            In name METADATA_SOURCES -> name ∈ METADATA_SOURCES).
  { intros name. apply list_elem_of_In. }
  unfold updatedMetadata, derivedMetadata.
  cbn [md_title md_artist md_album md_artwork]. f_equal.
  - destruct (truthy (mutations !! "title")) eqn:Ht; [done|].
    unfold attributeOrEmpty. rewrite (Hsame "title"); [done| |done].
    apply Hin. cbn. tauto.
  - destruct (truthy (mutations !! "artist")) eqn:Ht; [done|].
    unfold attributeOrEmpty. rewrite (Hsame "artist"); [done| |done].
    apply Hin. cbn. tauto.
  - destruct (truthy (mutations !! "album")) eqn:Ht; [done|].
    unfold attributeOrEmpty. rewrite (Hsame "album"); [done| |done].
    apply Hin. cbn. tauto.
  - destruct (truthy (mutations !! "artwork")) eqn:Ha; [done|].
    destruct (truthy (mutations !! "poster")) eqn:Hp; [done|].
    cbn [orb]. unfold derivedArtwork, artworkSource.
    rewrite (Hsame "artwork"), (Hsame "poster"); [done| |done| |done];
      apply Hin; cbn; tauto.
Qed.

(** ** The children under a layout *)



Lemma forEachRealChild_spared (todo : list Child) :
  (forall c : Child, In c todo -> spared c = true) ->
  forall (kept : list Child) (st : AmpVideo),
    forEachRealChild kept todo st = (Ok tt, st).
Proof.
  induction todo as [|[|child] todo IH]; intros Hspared kept st;
    cbn [forEachRealChild]; [reflexivity| |].
  - apply IH. intros c Hc. apply Hspared. by right.
  - assert (Hchild : isInternalOrServiceNode child = true)
      by exact (Hspared (Other child) (or_introl eq_refl)).
    rewrite Hchild. apply IH. intros c Hc. apply Hspared. by right.
Qed.



Lemma relayout_run (st st1 : AmpVideo) (v : VideoElement)
  (native : PlayReturn) (p : Promise) :
  video_ st = Some v ->
  v_play v = Some native ->
  layoutCallback st = (Ok p, st1) ->
  p = LAYOUT_PROMISE /\ layoutCallback st1 = (Ok LAYOUT_PROMISE, st1).
Proof.
  intros Hv Hplay. rewrite (layout_supported_run st v native Hv Hplay).
  destruct (truthyAttr (element_attributes st !! "src")
            && negb (passesHttpsAssert (element_attributes st !! "src")))
    eqn:Hcheck; [discriminate|].
  set (st0 := with_video _ st).
  pose proof (forEachRealChild_outcome (element_childNodes st) [] st0
                _ eq_refl) as Hout.
  pose proof (forEachRealChild_frame (element_childNodes st) [] st0
                _ eq_refl)
    as (Hattrs & _ & _ & _ & _ & w & v1 & Hw & Hv1 & Hvattrs & _ & _ & _
        & Hvplay).
  pose proof (fun Hnone =>
                forEachRealChild_migrates (element_childNodes st) [] st0
                  _ eq_refl eq_refl Hnone) as Hmoved.
  injection Hw as <-.
  destruct (forEachRealChild [] (element_childNodes st) st0)
    as [[[]|e] st'] eqn:Hrun; cbn [fst snd] in *; [|discriminate].
  intros [= <- <-]. split; [reflexivity|].
  destruct (firstRefused (element_childNodes st)); [discriminate|].
  destruct (Hmoved eq_refl) as (w & Hw & Hkids & _).
  rewrite Hv1 in Hw. injection Hw as <-.
  change (v_attributes v1 =
            propagate (element_attributes st) ATTRS_TO_PROPAGATE_ON_LAYOUT
              true (v_attributes v)) in Hvattrs.
  change (v_play v1 = v_play v) in Hvplay. rewrite Hplay in Hvplay.
  change (element_attributes st' = element_attributes st) in Hattrs.
  rewrite (layout_supported_run st' v1 native Hv1 Hvplay).
  rewrite Hattrs, Hcheck, Hvattrs, propagate_idempotent, <- Hvattrs.
  assert (Hsame : with_video (Some (v_with_attributes (v_attributes v1) v1))
                    st' = st').
  { destruct st' as [attrs kids vid mu md eff unh]. cbn in Hv1. subst vid.
    by destruct v1. }
  rewrite Hsame, Hkids. cbn [app].
  rewrite forEachRealChild_spared; [reflexivity|].
  intros c Hc. by apply filter_In in Hc as [_ Hc].
Qed.

(** X10.  A layout that has handed back its promise can be repeated without
    any further change to the component: the second call returns and leaves
    the component exactly as the first call left it.  It hands back a
    promise of its own, with its own reaction: once the native element is
    ready, settling the two promises dispatches LOAD twice. *)
Theorem relayout_keeps_component (st st1 : AmpVideo) (v : VideoElement)
  (native : PlayReturn) (p : Promise) :
  video_ st = Some v ->
  v_play v = Some native ->
  layoutCallback st = (Ok p, st1) ->
  exists p' : Promise,
    layoutCallback st1 = (Ok p', st1)
    /\ fst (settle LoadStarted p' (snd (settle LoadStarted p st1)))
       = Fulfilled
    /\ effects (snd (settle LoadStarted p' (snd (settle LoadStarted p st1))))
       = effects st1
           ++ [ DispatchCustomEvent LOAD None; DispatchCustomEvent LOAD None ].
Proof.
  intros Hv Hplay Hrun.
  destruct (relayout_run st st1 v native p Hv Hplay Hrun) as [-> Hagain].
  exists LAYOUT_PROMISE. split; [exact Hagain|].
  destruct st1 as [attrs kids vid mu md eff unh]. cbn.
  split; [reflexivity|]. by rewrite <- app_assoc.
Qed.

(** ** From the document to the laid-out component *)





Lemma firstByTag_among_stale (tag : string) (old fresh : option VideoElement)
  (cs : list Child) :
  firstByTagInChildren tag fresh
    (flat_map
       (fun c =>
          match c with
          | TheVideo =>
              match old with
              | Some old => [Other (videoAsNode old)]
              | None => []
              end
          | Other n => [Other n]
          end)
       cs)
  = firstByTagInChildren tag old cs.
Proof.
  induction cs as [|[|n] cs IH]; cbn [flat_map firstByTagInChildren app];
    [reflexivity| |].
  - destruct old as [old|]; cbn [app firstByTagInChildren childAsNode];
      by rewrite IH.
  - cbn [childAsNode]. by rewrite IH.
Qed.

Lemma firstByTagInChildren_app (tag : string) (video : option VideoElement)
  (cs1 cs2 : list Child) :
  firstByTagInChildren tag video (cs1 ++ cs2)
  = match firstByTagInChildren tag video cs1 with
    | Some r => Some r
    | None => firstByTagInChildren tag video cs2
    end.
Proof.
  induction cs1 as [|c cs1 IH]; cbn [app firstByTagInChildren];
    [reflexivity|].
  destruct (childAsNode video c ≫= firstByTag tag); [reflexivity|exact IH].
Qed.

(** X12.  A build does not change the source the component resolves: the
    native element it adds holds no [source] yet, so [getVideoSource_]
    gives the same value after [buildCallback] as before, and
    [preconnectCallback] ends the same way. *)
Theorem build_keeps_resolved_source (st : AmpVideo)
  (opt_onLayout : option bool) :
  fst (getVideoSource_ (snd (buildCallback st))) = fst (getVideoSource_ st)
  /\ fst (preconnectCallback opt_onLayout (snd (buildCallback st)))
     = fst (preconnectCallback opt_onLayout st).
Proof.
  assert (Hsource : fst (getVideoSource_ (snd (buildCallback st)))
                    = fst (getVideoSource_ st)).
  { rewrite build_result. destruct st as [attrs kids vid mu md eff unh].
    unfold getVideoSource_, elementByTag, staleChildren. run_primitives.
    destruct (negb (truthyAttr (attrs !! "src"))); [|reflexivity].
    run_primitives.
    rewrite firstByTagInChildren_app, firstByTag_among_stale.
    by destruct (firstByTagInChildren "source" vid kids). }
  split; [exact Hsource|].
  destruct (getVideoSource_pure st) as [videoSrc Hsrc].
  destruct (getVideoSource_pure (snd (buildCallback st))) as [videoSrc' Hsrc'].
  rewrite Hsrc, Hsrc' in Hsource. cbn [fst] in Hsource.
  injection Hsource as ->.
  rewrite (preconnect_run _ _ opt_onLayout Hsrc),
    (preconnect_run _ _ opt_onLayout Hsrc').
  destruct (truthyAttr videoSrc); [|reflexivity].
  by destruct (passesHttpsAssert videoSrc).
Qed.

End Further.

(** ** The further properties on the sample documents *)

(** X1 on the sample ranges, before and after the build. *)
Lemma played_ranges_are_copied_witness :
  getPlayedRanges samplePlayed (unbuilt modernPlatform SECURE_URL SECURE_URL)
  = (Throw TypeError, unbuilt modernPlatform SECURE_URL SECURE_URL)
  /\ exists ranges,
       getPlayedRanges samplePlayed
         (built modernPlatform SECURE_URL SECURE_URL)
       = (Ok ranges, built modernPlatform SECURE_URL SECURE_URL)
       /\ length ranges = 2
       /\ ranges !! 1 = Some (30%Z, 45%Z).
Proof.
  split.
  - apply (played_ranges_are_copied samplePlayed
             (unbuilt modernPlatform SECURE_URL SECURE_URL)).
    reflexivity.
  - destruct (proj2 (played_ranges_are_copied samplePlayed
                       (built modernPlatform SECURE_URL SECURE_URL))
                (builtVideo modernPlatform SECURE_URL)
                ltac:(vm_compute; reflexivity))
      as (ranges & Hrun & Hlength & Hlookup & _).
    exists ranges. split; [exact Hrun|]. split; [exact Hlength|].
    apply (Hlookup 1). vm_compute. lia.
Defined.

(** X2 on a built sample: two events for three writes. *)
Lemma mute_events_follow_changes_witness :
  exists st' v',
    setMutedEach sampleWrites (built modernPlatform SECURE_URL SECURE_URL)
    = (Ok tt, st')
    /\ effects st' =
         effects (built modernPlatform SECURE_URL SECURE_URL)
           ++ [ mutedEvent true; mutedEvent false ]
    /\ muted_ st' = false
    /\ video_ st' = Some v'
    /\ v_muted v' = false.
Proof.
  apply (mute_events_follow_changes sampleWrites
           (built modernPlatform SECURE_URL SECURE_URL)
           (builtVideo modernPlatform SECURE_URL));
    [vm_compute; reflexivity|reflexivity].
Defined.

(** X3 on a built sample and on one that has not been built. *)
Lemma play_needs_platform_support_witness :
  fst (play true (built rejectingPlatform SECURE_URL SECURE_URL)) = Ok tt
  /\ play true (unbuilt rejectingPlatform SECURE_URL SECURE_URL)
     = (Throw TypeError, unbuilt rejectingPlatform SECURE_URL SECURE_URL)
  /\ fst (supportsPlatform (built legacyPlatform SECURE_URL SECURE_URL))
     = Ok false.
Proof.
  split; [|split].
  - apply (play_needs_platform_support (H := sampleHost rejectingPlatform)).
    vm_compute. reflexivity.
  - apply (play_needs_platform_support (H := sampleHost rejectingPlatform)).
    vm_compute. discriminate.
  - apply (play_needs_platform_support (H := sampleHost legacyPlatform)
             (built legacyPlatform SECURE_URL SECURE_URL) true).
    vm_compute. reflexivity.
Defined.

(** X4 on a built sample with a secure source. *)
Lemma preconnect_only_to_accepted_source_witness :
  preconnectCallback (H := sampleHost modernPlatform) (Some true)
    (built modernPlatform SECURE_URL SECURE_URL)
  = (Ok tt,
     with_effects
       (effects (built modernPlatform SECURE_URL SECURE_URL)
          ++ [PreconnectUrl SECURE_URL (Some true)])
       (built modernPlatform SECURE_URL SECURE_URL)).
Proof.
  destruct (preconnect_only_to_accepted_source
              (H := sampleHost modernPlatform)
              (built modernPlatform SECURE_URL SECURE_URL) (Some true))
    as (videoSrc & _ & Hown & _ & Hcases).
  assert (Hsrc : videoSrc = Some SECURE_URL).
  { rewrite Hown; vm_compute; reflexivity. }
  subst videoSrc.
  destruct Hcases as [[Hempty _]|[(url & Hurl & _ & _ & Hrun)|(_ & Hpass & _)]].
  - vm_compute in Hempty. discriminate.
  - injection Hurl as <-. exact Hrun.
  - vm_compute in Hpass. discriminate.
Defined.

(** X5 on a built sample whose [src] the document then made insecure. *)
Lemma refused_src_never_reaches_video_witness :
  element_attributes
    (elementSetAttribute "src" INSECURE_URL
       (built modernPlatform SECURE_URL SECURE_URL)) !! "src"
  = Some INSECURE_URL
  /\ (exists v',
        video_ (snd (layoutCallback (H := sampleHost modernPlatform)
                       (elementSetAttribute "src" INSECURE_URL
                          (built modernPlatform SECURE_URL SECURE_URL))))
        = Some v'
        /\ v_attributes v' !! "src" = None)
  /\ (exists v',
        video_ (snd (mutatedAttributesCallback
                       (H := sampleHost modernPlatform)
                       (srcMutation INSECURE_URL)
                       (elementSetAttribute "src" INSECURE_URL
                          (built modernPlatform SECURE_URL SECURE_URL))))
        = Some v'
        /\ v_attributes v' !! "src" = None).
Proof.
  split; [vm_compute; reflexivity|].
  destruct (refused_src_never_reaches_video (H := sampleHost modernPlatform)
              (elementSetAttribute "src" INSECURE_URL
                 (built modernPlatform SECURE_URL SECURE_URL))
              (builtVideo modernPlatform SECURE_URL)
              ltac:(vm_compute; reflexivity))
    as [(v' & Hv' & Hlayout) Hmutated].
  split.
  - exists v'. split; [exact Hv'|].
    destruct Hlayout as [->|[_ Hpass]]; [vm_compute; reflexivity|].
    specialize (Hpass ltac:(vm_compute; reflexivity)).
    vm_compute in Hpass. discriminate.
  - destruct (Hmutated (srcMutation INSECURE_URL)
                ltac:(intros _; vm_compute; reflexivity))
      as (w' & Hw' & Hcase).
    exists w'. split; [exact Hw'|].
    destruct Hcase as [->|[_ Hpass]]; [vm_compute; reflexivity|].
    specialize (Hpass ltac:(vm_compute; reflexivity)).
    vm_compute in Hpass. discriminate.
Defined.

(** X6 on the sample: [preload] is gone after the layout, the inline-play
    attributes stay, [autoplay] never arrives. *)
Lemma attributes_after_build_and_layout_witness :
  exists v',
    video_ (snd (layoutCallback (H := sampleHost modernPlatform)
                   (snd (buildCallback (H := sampleHost modernPlatform)
                           (unbuilt modernPlatform SECURE_URL SECURE_URL)))))
    = Some v'
    /\ v_attributes v' !! "preload" = None
    /\ v_attributes v' !! "src" = Some SECURE_URL
    /\ v_attributes v' !! "playsinline" = Some ""
    /\ v_attributes v' !! "class" = Some "fill replaced"
    /\ v_attributes v' !! "autoplay" = None.
Proof.
  destruct (attributes_after_build_and_layout (H := sampleHost modernPlatform)
              (unbuilt modernPlatform SECURE_URL SECURE_URL)
              (PlayPromise None) eq_refl
              ltac:(vm_compute; reflexivity))
    as (v' & Hv' & Hall & Hpreload).
  exists v'. split; [exact Hv'|]. split; [|split; [|split; [|split]]].
  - rewrite Hpreload. vm_compute. reflexivity.
  - rewrite Hall. vm_compute. reflexivity.
  - rewrite Hall. vm_compute. reflexivity.
  - rewrite Hall. vm_compute. reflexivity.
  - rewrite Hall. vm_compute. reflexivity.
Defined.

(** X7 on a built sample: the same new [src] reported twice. *)
Lemma repeated_mutation_changes_nothing_witness :
  mutatedAttributesCallback (H := sampleHost modernPlatform)
    (srcMutation SECURE_URL)
    (snd (mutatedAttributesCallback (H := sampleHost modernPlatform)
            (srcMutation SECURE_URL)
            (built modernPlatform SECURE_URL SECURE_URL)))
  = (Ok tt,
     with_effects
       (effects
          (snd (mutatedAttributesCallback (H := sampleHost modernPlatform)
                  (srcMutation SECURE_URL)
                  (built modernPlatform SECURE_URL SECURE_URL)))
          ++ [DispatchCustomEvent RELOAD None])
       (snd (mutatedAttributesCallback (H := sampleHost modernPlatform)
               (srcMutation SECURE_URL)
               (built modernPlatform SECURE_URL SECURE_URL)))).
Proof.
  apply (repeated_mutation_changes_nothing (H := sampleHost modernPlatform)
           (built modernPlatform SECURE_URL SECURE_URL) _
           (builtVideo modernPlatform SECURE_URL) (srcMutation SECURE_URL));
    vm_compute; reflexivity.
Defined.

(** X8 on a built sample whose album the document changed. *)
Lemma metadata_tracks_reported_changes_witness :
  metadata_
    (snd (mutatedAttributesCallback (H := sampleHost modernPlatform)
            (albumMutation "Live")
            (elementSetAttribute "album" "Live"
               (built modernPlatform SECURE_URL SECURE_URL))))
  = derivedMetadata
      (element_attributes
         (snd (mutatedAttributesCallback (H := sampleHost modernPlatform)
                 (albumMutation "Live")
                 (elementSetAttribute "album" "Live"
                    (built modernPlatform SECURE_URL SECURE_URL))))).
Proof.
  apply (metadata_tracks_reported_changes (H := sampleHost modernPlatform)
           (elementSetAttribute "album" "Live"
              (built modernPlatform SECURE_URL SECURE_URL))
           _ (builtVideo modernPlatform SECURE_URL)
           (sampleAttributes SECURE_URL) (albumMutation "Live")).
  - vm_compute. reflexivity.
  - vm_compute. reflexivity.
  - intros name Hin. unfold METADATA_SOURCES in Hin.
    repeat (apply elem_of_cons in Hin as [->|Hin];
            [first [left; vm_compute; reflexivity
                   | right; vm_compute; reflexivity]|]).
    by apply elem_of_nil in Hin.
  - vm_compute. reflexivity.
Defined.


(** X10 on a built sample with secure sources. *)
Lemma relayout_keeps_component_witness :
  exists p' : Promise,
    layoutCallback (H := sampleHost modernPlatform)
      (snd (layoutCallback (H := sampleHost modernPlatform)
              (built modernPlatform SECURE_URL SECURE_URL)))
    = (Ok p',
       snd (layoutCallback (H := sampleHost modernPlatform)
              (built modernPlatform SECURE_URL SECURE_URL)))
    /\ effects
         (snd (settle LoadStarted p'
                 (snd (settle LoadStarted LAYOUT_PROMISE
                         (snd (layoutCallback (H := sampleHost modernPlatform)
                                 (built modernPlatform SECURE_URL
                                    SECURE_URL)))))))
       = effects
           (snd (layoutCallback (H := sampleHost modernPlatform)
                   (built modernPlatform SECURE_URL SECURE_URL)))
           ++ [ DispatchCustomEvent LOAD None; DispatchCustomEvent LOAD None ].
Proof.
  destruct (relayout_keeps_component (H := sampleHost modernPlatform)
              (built modernPlatform SECURE_URL SECURE_URL)
              (snd (layoutCallback (H := sampleHost modernPlatform)
                      (built modernPlatform SECURE_URL SECURE_URL)))
              (builtVideo modernPlatform SECURE_URL) (PlayPromise None)
              LAYOUT_PROMISE
              ltac:(vm_compute; reflexivity) eq_refl
              ltac:(vm_compute; reflexivity))
    as (p' & Hagain & _ & Hloads).
  exists p'. split; [exact Hagain|exact Hloads].
Defined.

